(** * StockSim: a shallow embedding of [src/main.cpp]

    The program is a console stock-market simulator: [SimulatedStock]
    objects whose price follows a bounded random walk, and a
    [UserPortfolio] that buys and sells them against a cash balance.

    Data is modelled as the C++ code has it:
    - [double] is IEEE 754 binary64, through the executable specification
      of the Standard Library ([spec_float], rounding to nearest even);
    - [int] is a 32-bit two's complement integer carried in [Z];
    - [std::string] is [string], [std::vector] is [list];
    - text sent to [cout] by the portfolio operations is returned as a list
      of messages next to the new state (the [display] methods only print
      and are left out);
    - [rand()] is a sequence of integers consumed through an index. *)

From Stdlib Require Import ZArith List String Ascii Bool Lia SpecFloat.
Import ListNotations.
Open Scope Z_scope.

(** ** The C++ [int] *)

Module CInt.

Definition INT_MIN : Z := -2147483648.
Definition INT_MAX : Z := 2147483647.

Definition in_range (z : Z) : Prop := INT_MIN <= z <= INT_MAX.

(** Two's complement reduction to 32 bits.  Signed overflow is undefined
    in C++; the model gives it the wrap-around value that the usual
    targets produce, and statements about exact sums assume [in_range]. *)
Definition wrap (z : Z) : Z := (z + 2147483648) mod 4294967296 - 2147483648.

Definition add (a b : Z) : Z := wrap (a + b).
Definition sub (a b : Z) : Z := wrap (a - b).

(** Conversion of an [int] to [size_t] (64 bits), which the comparison
    [id <= market.size()] applies to [id]. *)
Definition to_size_t (z : Z) : Z := z mod 18446744073709551616.

End CInt.

(** ** The C++ [double] *)

Module Double.

Definition prec : Z := 53.
Definition emax : Z := 1024.

Definition double : Type := spec_float.

Definition add : double -> double -> double := SFadd prec emax.
Definition sub : double -> double -> double := SFsub prec emax.
Definition mul : double -> double -> double := SFmul prec emax.
Definition div : double -> double -> double := SFdiv prec emax.
Definition opp : double -> double := SFopp.

Definition ltb : double -> double -> bool := SFltb.
Definition leb : double -> double -> bool := SFleb.
Definition gtb (x y : double) : bool := SFltb y x.
Definition geb (x y : double) : bool := SFleb y x.

(** Conversion of an integer value to [double] (exact below [2^53]). *)
Definition of_Z (z : Z) : double := binary_normalize prec emax z 0 false.

Definition is_nan (x : double) : bool :=
  match x with S754_nan => true | _ => false end.

(** The literals of the source: [1], [100.0] and [3000.0] are exact; [0.2],
    [0.1] and [0.05] denote the doubles nearest to 1/5, 1/10 and 1/20, which
    the correctly rounded quotients are ([0x1.999999999999ap-3], [p-4] and
    [p-5]: mantissa 7205759403792794). *)
Definition d1 : double := Eval vm_compute in of_Z 1.
Definition d100 : double := Eval vm_compute in of_Z 100.
Definition d0_2 : double := Eval vm_compute in div (of_Z 1) (of_Z 5).
Definition d0_1 : double := Eval vm_compute in div (of_Z 1) (of_Z 10).
Definition d0_05 : double := Eval vm_compute in div (of_Z 1) (of_Z 20).
Definition d3000 : double := Eval vm_compute in of_Z 3000.

(** The largest finite double, [(2^53 - 1) * 2^971]. *)
Definition DBL_MAX : double := S754_finite false 9007199254740991 971.

End Double.

Import Double.

(** ** The classes of namespace [StockSim] *)

Module StockSim.

Definition nl : string := String (ascii_of_nat 10) EmptyString.

(** [Stock] and [SimulatedStock]: the base class holds [id], [name],
    [currentPrice] and [riskLevel]; the derived class adds [priceHistory]. *)
Record SimulatedStock : Type := mkSimulatedStock {
  id : Z;
  name : string;
  currentPrice : double;
  riskLevel : string;
  priceHistory : list double
}.

(** The constructor pushes the initial price on the empty history. *)
Definition new_SimulatedStock (i : Z) (n : string) (price : double)
    (risk : string) : SimulatedStock :=
  {| id := i; name := n; currentPrice := price; riskLevel := risk;
     priceHistory := [] ++ [price] |}.

Definition getName (s : SimulatedStock) : string := name s.
Definition getPrice (s : SimulatedStock) : double := currentPrice s.
Definition getRiskLevel (s : SimulatedStock) : string := riskLevel s.
Definition getId (s : SimulatedStock) : Z := id s.
Definition getHistory (s : SimulatedStock) : list double := priceHistory s.

(** [(riskLevel == "High") ? 0.2 : (riskLevel == "Medium") ? 0.1 : 0.05] *)
Definition volatility (risk : string) : double :=
  if String.eqb risk "High" then d0_2
  else if String.eqb risk "Medium" then d0_1
  else d0_05.

(** [(rand() % 201) - 100], on the value [rnd] returned by [rand()]. *)
Definition rand_offset (rnd : Z) : Z := Z.rem rnd 201 - 100.

(** The price after one step, from the offset [r] in [[-100, 100]]:
    [change = r / 100.0 * volatility * currentPrice], added to the price,
    then [if (currentPrice < 1) currentPrice = 1]. *)
Definition next_price (risk : string) (price : double) (r : Z) : double :=
  let change := mul (mul (div (of_Z r) d100) (volatility risk)) price in
  let moved := add price change in
  if ltb moved d1 then d1 else moved.

(** [SimulatedStock::updatePrice], with the value of [rand()] as argument. *)
Definition updatePrice (s : SimulatedStock) (rnd : Z) : SimulatedStock :=
  let p := next_price (riskLevel s) (currentPrice s) (rand_offset rnd) in
  {| id := id s; name := name s; currentPrice := p;
     riskLevel := riskLevel s; priceHistory := priceHistory s ++ [p] |}.

(** [UserOwnedStock]: a [SimulatedStock] sub-object and a quantity. *)
Record UserOwnedStock : Type := mkUserOwnedStock {
  stock : SimulatedStock;
  quantity : Z
}.

(** The constructor copies id, name, price and risk level of [base] into
    a fresh [SimulatedStock] (with a fresh history). *)
Definition new_UserOwnedStock (base : SimulatedStock) (qty : Z)
    : UserOwnedStock :=
  {| stock := new_SimulatedStock (getId base) (getName base)
                (getPrice base) (getRiskLevel base);
     quantity := qty |}.

Definition getQuantity (o : UserOwnedStock) : Z := quantity o.

Definition getTotalValue (o : UserOwnedStock) : double :=
  mul (of_Z (quantity o)) (currentPrice (stock o)).

(** [void buy(int qty) { quantity += qty; }] *)
Definition buy (o : UserOwnedStock) (qty : Z) : UserOwnedStock :=
  {| stock := stock o; quantity := CInt.add (quantity o) qty |}.

Definition msg_not_enough_stock : string := "Not enough stock to sell." ++ nl.

(** [UserOwnedStock::sell]. *)
Definition sell (o : UserOwnedStock) (qty : Z) : UserOwnedStock * list string :=
  if qty <=? quantity o
  then ({| stock := stock o; quantity := CInt.sub (quantity o) qty |}, [])
  else (o, [msg_not_enough_stock]).

(** The inherited [updatePrice] acts on the [SimulatedStock] sub-object. *)
Definition owned_updatePrice (o : UserOwnedStock) (rnd : Z) : UserOwnedStock :=
  {| stock := updatePrice (stock o) rnd; quantity := quantity o |}.

(** [UserPortfolio]. *)
Record UserPortfolio : Type := mkUserPortfolio {
  balance : double;
  ownedStocks : list UserOwnedStock
}.

Definition new_UserPortfolio (initialBalance : double) : UserPortfolio :=
  {| balance := initialBalance; ownedStocks := [] |}.

(** The default argument [initialBalance = 3000.0]. *)
Definition default_UserPortfolio : UserPortfolio := new_UserPortfolio d3000.

Definition getBalance (u : UserPortfolio) : double := balance u.

Definition msg_insufficient_balance : string := "Insufficient balance." ++ nl.
Definition msg_not_enough_quantity : string := "Not enough quantity." ++ nl.
Definition msg_not_found : string := "Stock not found in portfolio." ++ nl.
Definition msg_invalid_id : string := "Invalid ID." ++ nl.

(** The range-for of [buyStock]: [scanned] are the positions already
    visited, [rest] the ones still to visit.  [Some l] is the vector after
    the early [return], [None] means the loop ran to its end. *)
Fixpoint buyStock_loop (scanned rest : list UserOwnedStock)
    (sname : string) (qty : Z) : option (list UserOwnedStock) :=
  match rest with
  | [] => None
  | o :: rest' =>
      if String.eqb (getName (stock o)) sname
      then Some (scanned ++ buy o qty :: rest')
      else buyStock_loop (scanned ++ [o]) rest' sname qty
  end.

(** [UserPortfolio::buyStock]. *)
Definition buyStock (u : UserPortfolio) (s : SimulatedStock) (qty : Z)
    : UserPortfolio * list string :=
  let total := mul (getPrice s) (of_Z qty) in
  if gtb total (balance u) then (u, [msg_insufficient_balance])
  else
    let balance' := sub (balance u) total in
    match buyStock_loop [] (ownedStocks u) (getName s) qty with
    | Some l => ({| balance := balance'; ownedStocks := l |}, [])
    | None =>
        ({| balance := balance';
            ownedStocks := ownedStocks u ++ [new_UserOwnedStock s qty] |}, [])
    end.

(** The indexed loop of [sellStock]: [scanned] holds the elements at the
    indices below [i], [rest] the elements from index [i] on. *)
Fixpoint sellStock_loop (bal : double) (scanned rest : list UserOwnedStock)
    (stockName : string) (qty : Z) : UserPortfolio * list string :=
  match rest with
  | [] => ({| balance := bal; ownedStocks := scanned |}, [msg_not_found])
  | o :: rest' =>
      if String.eqb (getName (stock o)) stockName then
        if qty <=? getQuantity o then
          let income := mul (of_Z qty) (getPrice (stock o)) in
          let (o', out) := sell o qty in
          let bal' := add bal income in
          if getQuantity o' =? 0
          then ({| balance := bal'; ownedStocks := scanned ++ rest' |}, out)
          else ({| balance := bal'; ownedStocks := scanned ++ o' :: rest' |}, out)
        else
          ({| balance := bal; ownedStocks := scanned ++ o :: rest' |},
           [msg_not_enough_quantity])
      else sellStock_loop bal (scanned ++ [o]) rest' stockName qty
  end.

(** [UserPortfolio::sellStock]. *)
Definition sellStock (u : UserPortfolio) (stockName : string) (qty : Z)
    : UserPortfolio * list string :=
  sellStock_loop (balance u) [] (ownedStocks u) stockName qty.

(** [UserPortfolio::updatePrices]: every position draws its own [rand()].
    [rnd] is the sequence of values of [rand()], [k] the number of draws
    made so far; the new count is returned. *)
Fixpoint updatePrices_loop (l : list UserOwnedStock) (rnd : nat -> Z)
    (k : nat) : list UserOwnedStock * nat :=
  match l with
  | [] => ([], k)
  | o :: l' =>
      let o' := owned_updatePrice o (rnd k) in
      let (l'', k') := updatePrices_loop l' rnd (S k) in
      (o' :: l'', k')
  end.

Definition updatePrices (u : UserPortfolio) (rnd : nat -> Z) (k : nat)
    : UserPortfolio * nat :=
  let (l, k') := updatePrices_loop (ownedStocks u) rnd k in
  ({| balance := balance u; ownedStocks := l |}, k').

(** [n] successive calls of [updatePrice] on one instrument. *)
Fixpoint updatePrice_n (n : nat) (s : SimulatedStock) (rnd : nat -> Z)
    (k : nat) : SimulatedStock :=
  match n with
  | O => s
  | S n' => updatePrice_n n' (updatePrice s (rnd k)) rnd (S k)
  end.

(** The market built at the start of [main]. *)
Definition market0 : list SimulatedStock :=
  [ new_SimulatedStock 1 "Apple" (of_Z 211) "Medium";
    new_SimulatedStock 2 "Google" (of_Z 165) "Medium";
    new_SimulatedStock 3 "Amazon" (of_Z 205) "High";
    new_SimulatedStock 4 "McDonald's" (of_Z 314) "Low";
    new_SimulatedStock 5 "UnitedHealth" (of_Z 60) "Low";
    new_SimulatedStock 6 "Tesla" (of_Z 342) "High";
    new_SimulatedStock 7 "NVDA" (of_Z 134) "High";
    new_SimulatedStock 8 "Microsoft" (of_Z 453) "Medium";
    new_SimulatedStock 9 "META" (of_Z 643) "High" ].

(** [case 2] of the menu in [main], after [id] and [qty] were read:
    [if (id >= 1 && id <= market.size()) user.buyStock(market[id - 1], qty);
     else cout << "Invalid ID.\n";].  The comparison with [size()] is made
    in [size_t].  [None] stands for an access outside the vector. *)
Definition main_case2 (market : list SimulatedStock) (user : UserPortfolio)
    (id qty : Z) : option (UserPortfolio * list string) :=
  if (1 <=? id) && (CInt.to_size_t id <=? Z.of_nat (List.length market)) then
    match nth_error market (Z.to_nat (id - 1)) with
    | Some s => Some (buyStock user s qty)
    | None => None
    end
  else Some (user, [msg_invalid_id]).

(** Portfolio states that a sequence of public calls can produce. *)
Inductive reachable : UserPortfolio -> Prop :=
| reach_new : forall initialBalance,
    reachable (new_UserPortfolio initialBalance)
| reach_buy : forall u s qty,
    reachable u -> reachable (fst (buyStock u s qty))
| reach_sell : forall u stockName qty,
    reachable u -> reachable (fst (sellStock u stockName qty))
| reach_update : forall u rnd k,
    reachable u -> reachable (fst (updatePrices u rnd k)).

End StockSim.

Import StockSim.

(** * Vocabulary of the statements *)

(** The first instrument of the market: "Apple", priced at [211.0]. *)
Definition apple : SimulatedStock :=
  nth 0 market0 (new_SimulatedStock 0 "" d1 "").

(** The last instrument of the market: "META", priced at [643.0]. *)
Definition meta : SimulatedStock := nth 8 market0 apple.

Definition owned_name (o : UserOwnedStock) : string := getName (stock o).

(** No position of [l] is called [n]. *)
Definition absent (n : string) (l : list UserOwnedStock) : Prop :=
  Forall (fun o => owned_name o <> n) l.

Definition names (l : list UserOwnedStock) : list string := map owned_name l.

(** No position of [l] has quantity 0. *)
Definition no_zero_quantity (l : list UserOwnedStock) : Prop :=
  Forall (fun o => getQuantity o <> 0) l.

Definition d0 : double := of_Z 0.

(** [x] is a finite non-zero number. *)
Definition is_finite (x : double) : bool :=
  match x with S754_finite _ _ _ => true | _ => false end.

(** [x] carries the sign [s], or is not a number. *)
Definition sign_or_nan (s : bool) (x : double) : bool :=
  match x with
  | S754_nan => true
  | S754_zero s' | S754_infinity s' | S754_finite s' _ _ => Bool.eqb s s'
  end.

(** The first position called [n], as the scans of [buyStock] and
    [sellStock] find it. *)
Definition find_owned (n : string) (l : list UserOwnedStock)
    : option UserOwnedStock :=
  find (fun o => String.eqb (owned_name o) n) l.

(** A price the clamp of [updatePrice] lets stand: not below [1.0]. *)
Definition not_below_one (p : double) : Prop := ltb p d1 = false.

(** ** The menu loop of [main]

    One iteration reads [choice] and, in the branches 2 and 3, the operands
    [id], [qty] and [name]; the model receives the values read.  Of the
    output it keeps the messages of the branches and of the portfolio
    operations; the menu, the prompts and the text of the [display] methods
    are left out. *)

Module Menu.

Definition msg_goodbye : string := "Goodbye! Please return later!" ++ nl.
Definition msg_invalid_option : string := "Invalid option." ++ nl.

(** [for (auto& s : market) s->updatePrice();] with [k] draws of [rand()]
    made before. *)
Fixpoint market_updatePrices (m : list SimulatedStock) (rnd : nat -> Z)
    (k : nat) : list SimulatedStock * nat :=
  match m with
  | [] => ([], k)
  | s :: m' =>
      let s' := updatePrice s (rnd k) in
      let (m'', k') := market_updatePrices m' rnd (S k) in
      (s' :: m'', k')
  end.

(** The variables of [main]: the market, the portfolio, and the number of
    calls of [rand()] made so far. *)
Record Program : Type := mkProgram {
  market : list SimulatedStock;
  user : UserPortfolio;
  drawn : nat
}.

Definition main_init : Program :=
  {| market := market0; user := default_UserPortfolio; drawn := 0 |}.

(** What an iteration reads after [choice]. *)
Record Operands : Type := mkOperands {
  op_id : Z;
  op_qty : Z;
  op_name : string
}.

(** The [switch (choice)] of the loop body.  [None] stands for an access
    outside the market vector. *)
Definition main_body (rnd : nat -> Z) (st : Program) (choice : Z)
    (ops : Operands) : option (Program * list string) :=
  match choice with
  | 1 => Some (st, [])
  | 2 =>
      match main_case2 (market st) (user st) (op_id ops) (op_qty ops) with
      | Some (u, out) =>
          Some ({| market := market st; user := u; drawn := drawn st |}, out)
      | None => None
      end
  | 3 =>
      let (u, out) := sellStock (user st) (op_name ops) (op_qty ops) in
      Some ({| market := market st; user := u; drawn := drawn st |}, out)
  | 4 => Some (st, [])
  | 5 =>
      let (m, k1) := market_updatePrices (market st) rnd (drawn st) in
      let (u, k2) := updatePrices (user st) rnd k1 in
      Some ({| market := m; user := u; drawn := k2 |}, [])
  | 0 => Some (st, [msg_goodbye])
  | _ => Some (st, [msg_invalid_option])
  end.

(** [do { ... } while (choice != 0);] over the entries typed by the user.
    The boolean tells whether the loop was left (a 0 was entered); with
    [false] the program waits for more input. *)
Fixpoint main_loop (rnd : nat -> Z) (st : Program)
    (inputs : list (Z * Operands)) : option (Program * list string * bool) :=
  match inputs with
  | [] => Some (st, [], false)
  | (choice, ops) :: rest =>
      match main_body rnd st choice ops with
      | None => None
      | Some (st', out) =>
          if choice =? 0 then Some (st', out, true)
          else
            match main_loop rnd st' rest with
            | None => None
            | Some (st'', out', exited) => Some (st'', out ++ out', exited)
            end
      end
  end.

(** The number of days simulated by the entries, up to the first 0. *)
Fixpoint simulated_days (inputs : list (Z * Operands)) : nat :=
  match inputs with
  | [] => O
  | (choice, _) :: rest =>
      if choice =? 0 then O
      else if choice =? 5 then S (simulated_days rest)
      else simulated_days rest
  end.

(** Every [id] entered is an [int]. *)
Definition int_ids (inputs : list (Z * Operands)) : Prop :=
  Forall (fun e => CInt.in_range (op_id (snd e))) inputs.

End Menu.

Import Menu.

(** The names of the instruments [main] puts on the market. *)
Definition market_names : list string := map getName market0.

(** [m] holds the instruments of [market0], in their order, up to prices
    and histories. *)
Definition same_instruments (m : list SimulatedStock) : Prop :=
  map getId m = map getId market0
  /\ map getName m = map getName market0
  /\ map getRiskLevel m = map getRiskLevel market0.

(** Every price of the market and of the portfolio is not below [1.0]. *)
Definition prices_floor (st : Program) : Prop :=
  Forall (fun s => not_below_one (getPrice s)) (market st)
  /\ Forall (fun o => not_below_one (getPrice (stock o)))
            (ownedStocks (user st)).

(** The positions have distinct names, all of them names of the market. *)
Definition positions_of_market (st : Program) : Prop :=
  NoDup (names (ownedStocks (user st)))
  /\ incl (names (ownedStocks (user st))) (map getName (market st)).

(** Every instrument of the market is at day [d] (its history has [d]
    entries) and every position is at a day between 1 and [d]. *)
Definition at_day (d : nat) (st : Program) : Prop :=
  Forall (fun s => List.length (getHistory s) = d) (market st)
  /\ Forall (fun o => (1 <= List.length (getHistory (stock o)) <= d)%nat)
            (ownedStocks (user st)).

(** A session used to instantiate the statements about the loop: buy two
    "Apple", simulate a day, buy one "META", sell one "Apple", simulate a
    day, try an unknown option, leave. *)
Definition demo_rnd : nat -> Z := fun k => Z.of_nat (31 * k + 7).

Definition no_operands : Operands := mkOperands 0 0 "".

Definition demo_inputs : list (Z * Operands) :=
  [ (2, mkOperands 1 2 ""); (5, no_operands); (2, mkOperands 9 1 "");
    (3, mkOperands 0 1 "Apple"); (5, no_operands); (7, no_operands);
    (0, no_operands) ].

(** [x] is a well-formed binary64 value, as every [double] is: a finite
    mantissa is canonical for its exponent and the exponent is in range. *)
Definition well_formed (x : double) : Prop := valid_binary prec emax x = true.

(** [x] is neither an infinity nor NaN. *)
Definition finite_or_zero (x : double) : bool :=
  match x with S754_zero _ | S754_finite _ _ _ => true | _ => false end.

(** Every position of [l] holds a positive number of shares (an [int]). *)
Definition positive_quantities (l : list UserOwnedStock) : Prop :=
  Forall (fun o => 0 < getQuantity o /\ CInt.in_range (getQuantity o)) l.

(** * Facts about the arithmetic layer *)

Section DoubleFacts.

(** Swapping the operands of a comparison reverses its outcome. *)
Lemma SFcompare_swap (x y : double) :
  SFcompare y x = option_map CompOpp (SFcompare x y).
Proof.
  destruct x as [sx|sx| |sx mx ex], y as [sy|sy| |sy my ey]; simpl;
    try reflexivity;
    try (destruct sx; reflexivity);
    try (destruct sy; reflexivity);
    try (destruct sx, sy; reflexivity).
  destruct sx, sy; try reflexivity;
    rewrite (Z.compare_antisym ex ey);
    destruct (ex ?= ey); simpl; try reflexivity;
    rewrite (Pos.compare_cont_antisym mx my Eq); simpl;
    destruct (Pos.compare_cont Eq mx my); reflexivity.
Qed.

(** [y <= x] excludes [y > x]. *)
Lemma leb_not_gtb (x y : double) : leb y x = true -> gtb y x = false.
Proof.
  unfold leb, gtb, SFleb, SFltb. rewrite (SFcompare_swap y x).
  destruct (SFcompare y x) as [[ | | ]|]; simpl; congruence.
Qed.

(** A value that is not below [1.0] is at least [1.0], or is not a number. *)
Lemma not_ltb_one (x : double) :
  ltb x d1 = false -> leb d1 x = true \/ x = S754_nan.
Proof.
  intros H.
  destruct x as [s|s| |s m e]; [left | left | right; reflexivity | left];
    revert H; unfold ltb, leb, SFltb, SFleb;
    rewrite (SFcompare_swap _ d1);
    match goal with
    | |- context [SFcompare ?a d1] =>
        assert (E : exists c, SFcompare a d1 = Some c)
          by (eexists; reflexivity);
        destruct E as [c E]; rewrite E
    end;
    destruct c; simpl; congruence.
Qed.

End DoubleFacts.

Section RoundingFacts.

Lemma shr_1_nonneg (mrs : shr_record) :
  0 <= shr_m mrs -> 0 <= shr_m (shr_1 mrs).
Proof.
  destruct mrs as [m r s]. simpl.
  destruct m as [|[p|p|]|[p|p|]]; simpl; lia.
Qed.

Lemma iter_pos_shr_1_nonneg (p : positive) :
  forall mrs, 0 <= shr_m mrs -> 0 <= shr_m (iter_pos shr_1 p mrs).
Proof.
  induction p as [p IH|p IH|]; intros mrs H; simpl.
  - apply IH, IH, shr_1_nonneg, H.
  - apply IH, IH, H.
  - apply shr_1_nonneg, H.
Qed.

Lemma shr_fexp_nonneg (m e : Z) (l : location) :
  0 <= m -> 0 <= shr_m (fst (shr_fexp prec emax m e l)).
Proof.
  intros H. unfold shr_fexp, shr.
  assert (H0 : 0 <= shr_m (shr_record_of_loc m l))
    by (destruct l as [|[ | | ]]; exact H).
  destruct (fexp prec emax (Zdigits2 m + e) - e); simpl; try exact H0.
  apply iter_pos_shr_1_nonneg, H0.
Qed.

Lemma round_nearest_even_nonneg (m : Z) (l : location) :
  0 <= m -> 0 <= round_nearest_even m l.
Proof.
  intros H. destruct l as [|[ | | ]]; simpl; try lia.
  destruct (Z.even m); lia.
Qed.

(** Rounding a non-negative mantissa never produces NaN. *)
Lemma round_aux_not_nan (s : bool) (m e : Z) (l : location) :
  0 <= m -> is_nan (binary_round_aux prec emax s m e l) = false.
Proof.
  intros H. unfold binary_round_aux.
  pose proof (shr_fexp_nonneg m e l H) as H1.
  destruct (shr_fexp prec emax m e l) as [mrs e']. simpl in H1.
  pose proof (shr_fexp_nonneg _ e' loc_Exact
                (round_nearest_even_nonneg _ (loc_of_shr_record mrs) H1)) as H2.
  destruct (shr_fexp prec emax _ e' loc_Exact) as [mrs' e'']. simpl in H2.
  destruct (shr_m mrs'); [reflexivity | | lia].
  destruct (e'' <=? emax - prec); reflexivity.
Qed.

Lemma round_not_nan (s : bool) (m : positive) (e : Z) :
  is_nan (binary_round prec emax s m e) = false.
Proof.
  unfold binary_round. destruct (shl_align m e _) as [mz ez].
  apply round_aux_not_nan. lia.
Qed.

Lemma div_finite_not_nan (x : double) (s : bool) (m : positive) (e : Z) :
  is_nan x = false -> is_nan (div x (S754_finite s m e)) = false.
Proof.
  destruct x as [sx|sx| |sx mx ex]; intros H; try reflexivity;
    try discriminate.
  unfold div, SFdiv, SFdiv_core_binary.
  set (e' := Z.min _ _). set (m' := match ex - e - e' with
                                     | 0 => Z.pos mx
                                     | Z.pos _ => Z.shiftl (Z.pos mx) (ex - e - e')
                                     | Z.neg _ => 0 end).
  assert (Hm : 0 <= m').
  { unfold m'. destruct (ex - e - e'); try lia.
    apply Z.shiftl_nonneg. lia. }
  pose proof (Z.div_pos m' (Z.pos m) Hm ltac:(lia)) as Hq.
  unfold Z.div in Hq. destruct (Z.div_eucl m' (Z.pos m)) as [q r].
  simpl in Hq. apply round_aux_not_nan, Hq.
Qed.

Lemma mul_finite_not_nan (x : double) (s : bool) (m : positive) (e : Z) :
  is_nan x = false -> is_nan (mul x (S754_finite s m e)) = false.
Proof.
  destruct x as [sx|sx| |sx mx ex]; intros H; try reflexivity;
    try discriminate.
  unfold mul, SFmul. apply round_aux_not_nan. lia.
Qed.

Lemma add_finite_not_nan (y : double) (s : bool) (m : positive) (e : Z) :
  is_nan y = false -> is_nan (add (S754_finite s m e) y) = false.
Proof.
  destruct y as [sy|sy| |sy my ey]; intros H; try reflexivity;
    try discriminate.
  unfold add, SFadd, binary_normalize.
  destruct (_ + _); [reflexivity | apply round_not_nan | apply round_not_nan].
Qed.

Lemma volatility_finite (risk : string) :
  exists s m e, volatility risk = S754_finite s m e.
Proof.
  unfold volatility.
  destruct (String.eqb risk "High"); [|destruct (String.eqb risk "Medium")];
    do 3 eexists; reflexivity.
Qed.

(** A step from a finite price gives a number. *)
Lemma next_price_not_nan (risk : string) (price : double) (r : Z) :
  is_finite price = true -> is_nan (next_price risk price r) = false.
Proof.
  destruct price as [s|s| |s m e]; try discriminate. intros _.
  unfold next_price.
  destruct (volatility_finite risk) as (sv & mv & ev & Hv). rewrite Hv.
  assert (Hz : is_nan (of_Z r) = false).
  { unfold of_Z, binary_normalize.
    destruct r; [reflexivity | apply round_not_nan | apply round_not_nan]. }
  assert (Hc : is_nan (mul (mul (div (of_Z r) d100) (S754_finite sv mv ev))
                           (S754_finite s m e)) = false).
  { apply mul_finite_not_nan, mul_finite_not_nan.
    unfold d100. apply div_finite_not_nan, Hz. }
  pose proof (add_finite_not_nan _ s m e Hc) as Ha.
  destruct (ltb (add _ _) d1); [reflexivity | exact Ha].
Qed.

End RoundingFacts.

(** * Signs of products, for purchases of a negative quantity *)

Section SignFacts.

Lemma round_aux_sign (s : bool) (m e : Z) (l : location) :
  sign_or_nan s (binary_round_aux prec emax s m e l) = true.
Proof.
  unfold binary_round_aux.
  destruct (shr_fexp prec emax m e l) as [mrs e'].
  destruct (shr_fexp prec emax _ e' loc_Exact) as [mrs' e''].
  destruct (shr_m mrs'); [| destruct (e'' <=? emax - prec) |];
    simpl; try apply Bool.eqb_reflx; reflexivity.
Qed.

Lemma round_aux_opp (s : bool) (m e : Z) (l : location) :
  SFopp (binary_round_aux prec emax s m e l)
  = binary_round_aux prec emax (negb s) m e l.
Proof.
  unfold binary_round_aux.
  destruct (shr_fexp prec emax m e l) as [mrs e'].
  destruct (shr_fexp prec emax _ e' loc_Exact) as [mrs' e''].
  destruct (shr_m mrs'); [| destruct (e'' <=? emax - prec) |]; reflexivity.
Qed.

Lemma round_opp (s : bool) (m : positive) (e : Z) :
  SFopp (binary_round prec emax s m e) = binary_round prec emax (negb s) m e.
Proof.
  unfold binary_round.
  destruct (shl_align m e _) as [mz ez]. apply round_aux_opp.
Qed.

Lemma of_Z_negative_sign (z : Z) : z < 0 -> sign_or_nan true (of_Z z) = true.
Proof.
  destruct z as [|p|p]; intros H; try lia.
  unfold of_Z, binary_normalize, binary_round.
  destruct (shl_align p 0 _) as [mz ez]. apply round_aux_sign.
Qed.

Lemma of_Z_opp (z : Z) : z < 0 -> of_Z (- z) = opp (of_Z z).
Proof.
  destruct z as [|p|p]; intros H; try lia.
  change (of_Z (Z.pos p) = opp (of_Z (Z.neg p))).
  unfold opp, of_Z, binary_normalize.
  rewrite round_opp. reflexivity.
Qed.

Lemma mul_opp_r (x y : double) : mul x (opp y) = opp (mul x y).
Proof.
  unfold mul, opp.
  destruct x as [sx|sx| |sx mx ex], y as [sy|sy| |sy my ey];
    try reflexivity;
    try (destruct sx, sy; reflexivity).
  unfold SFopp at 1. unfold SFmul. rewrite round_aux_opp.
  now destruct sx, sy.
Qed.

Lemma sub_add_opp (x y : double) : sub x y = add x (opp y).
Proof.
  unfold sub, add, opp.
  destruct x as [sx|sx| |sx mx ex], y as [sy|sy| |sy my ey];
    try reflexivity;
    destruct sx, sy; reflexivity.
Qed.

(** A positive price times a negative-signed factor is negative-signed. *)
Lemma mul_positive_negative (p y : double) :
  ltb d0 p = true ->
  sign_or_nan true y = true ->
  sign_or_nan true (mul p y) = true.
Proof.
  unfold mul.
  destruct p as [sp|sp| |sp mp ep]; try discriminate;
    destruct sp; try discriminate; intros _;
    destruct y as [sy|sy| |sy my ey]; try reflexivity;
    destruct sy; try discriminate; intros _; try reflexivity.
  unfold SFmul. apply round_aux_sign.
Qed.

(** A negative-signed amount never exceeds a balance that is [>= 0]. *)
Lemma negative_not_above (b t : double) :
  leb d0 b = true ->
  sign_or_nan true t = true ->
  gtb t b = false.
Proof.
  unfold gtb, SFltb.
  destruct b as [sb|sb| |sb mb eb]; try discriminate;
    try (destruct sb; try discriminate); intros _;
    destruct t as [st|st| |st mt et]; try reflexivity;
    destruct st; try discriminate; reflexivity.
Qed.

End SignFacts.

(** * Price evolution *)

Section PriceEvolution.

(** The price written by one step is never below [1.0]. *)
Lemma next_price_floor (risk : string) (price : double) (r : Z) :
  ltb (next_price risk price r) d1 = false.
Proof.
  unfold next_price.
  destruct (ltb (add price _) d1) eqn:E; [reflexivity | exact E].
Qed.

Lemma updatePrice_n_history (N : nat) :
  forall s rnd k,
    List.length (priceHistory (updatePrice_n N s rnd k))
    = (List.length (priceHistory s) + N)%nat.
Proof.
  induction N as [|N IH]; intros s rnd k; simpl.
  - now rewrite Nat.add_0_r.
  - rewrite IH. simpl. rewrite length_app. simpl. lia.
Qed.

Lemma updatePrice_n_floor (N : nat) :
  forall s rnd k,
    ltb (currentPrice s) d1 = false ->
    ltb (currentPrice (updatePrice_n N s rnd k)) d1 = false.
Proof.
  induction N as [|N IH]; intros s rnd k H; simpl.
  - exact H.
  - apply IH. simpl. apply next_price_floor.
Qed.

Lemma rand_offset_range (rnd : Z) :
  0 <= rnd -> -100 <= rand_offset rnd <= 100.
Proof.
  intros H. unfold rand_offset.
  pose proof (Z.rem_bound_pos rnd 201 H ltac:(lia)). lia.
Qed.

Lemma updatePrice_n_snoc (N : nat) :
  forall s rnd k,
    updatePrice_n (S N) s rnd k
    = updatePrice (updatePrice_n N s rnd k) (rnd (k + N)%nat).
Proof.
  induction N as [|N IH]; intros s rnd k.
  - simpl. now rewrite Nat.add_0_r.
  - change (updatePrice_n (S (S N)) s rnd k)
      with (updatePrice_n (S N) (updatePrice s (rnd k)) rnd (S k)).
    rewrite IH. simpl. now rewrite Nat.add_succ_r.
Qed.

End PriceEvolution.

(** C5: an instrument built by the constructor and advanced by exactly [N]
    calls of [updatePrice] has a price history of length [N + 1]: the
    constructor seeds it with the initial price and every call appends one
    price. *)
Theorem history_length_after_N_updates :
  forall (i : Z) (n : string) (price : double) (risk : string)
         (N : nat) (rnd : nat -> Z) (k : nat),
    List.length
      (getHistory (updatePrice_n N (new_SimulatedStock i n price risk) rnd k))
    = (N + 1)%nat.
Proof.
  intros. unfold getHistory. rewrite updatePrice_n_history. simpl. lia.
Qed.

(** C6: one [updatePrice] step, for the integer [r = rand() % 201 - 100]
    (which lies in [[-100, 100]]), sets the price to
    [old + (r / 100) * v * old] clamped below at [1.0], with [v = 0.2] for
    "High", [0.1] for "Medium" and [0.05] otherwise, appends that price to
    the history and changes nothing else; the step is a total function. *)
Theorem updatePrice_step :
  forall (s : SimulatedStock) (rnd : Z),
    let r := rand_offset rnd in
    let v := volatility (getRiskLevel s) in
    let moved :=
      add (getPrice s) (mul (mul (div (of_Z r) d100) v) (getPrice s)) in
    let s' := updatePrice s rnd in
    (0 <= rnd -> -100 <= r <= 100)
    /\ (getRiskLevel s = "High"%string -> v = d0_2)
    /\ (getRiskLevel s = "Medium"%string -> v = d0_1)
    /\ (getRiskLevel s <> "High"%string ->
        getRiskLevel s <> "Medium"%string -> v = d0_05)
    /\ (ltb moved d1 = true -> getPrice s' = d1)
    /\ (geb moved d1 = true -> getPrice s' = moved)
    /\ getHistory s' = getHistory s ++ [getPrice s']
    /\ getId s' = getId s
    /\ getName s' = getName s
    /\ getRiskLevel s' = getRiskLevel s.
Proof.
  intros s rnd r v moved s'.
  split; [apply rand_offset_range|].
  split; [intros H; unfold v, volatility; rewrite H; reflexivity|].
  split; [intros H; unfold v, volatility; rewrite H; reflexivity|].
  split.
  { intros H1 H2. unfold v, volatility.
    apply String.eqb_neq in H1. apply String.eqb_neq in H2.
    now rewrite H1, H2. }
  assert (Hp : getPrice s' = if ltb moved d1 then d1 else moved) by reflexivity.
  split; [intros H; rewrite Hp, H; reflexivity|].
  split; [|repeat split; reflexivity].
  intros H. rewrite Hp.
  now rewrite (leb_not_gtb moved d1 H : ltb moved d1 = false).
Qed.

Lemma updatePrice_step_witness :
  rand_offset 150 = 50
  /\ getPrice (updatePrice apple 150)
     = add (of_Z 211) (mul (mul (div (of_Z 50) d100) d0_1) (of_Z 211))
  /\ rand_offset 0 = -100
  /\ getPrice (updatePrice (new_SimulatedStock 10 "Penny" d1 "Low") 0) = d1.
Proof.
  destruct (updatePrice_step apple 150)
    as (_ & _ & Hmedium & _ & _ & Hkeep & _).
  destruct (updatePrice_step (new_SimulatedStock 10 "Penny" d1 "Low") 0)
    as (_ & _ & _ & _ & Hclamp & _).
  cbv zeta in *.
  split; [reflexivity|]. split; [|split; [reflexivity|]].
  - rewrite Hkeep; [|vm_compute; reflexivity].
    rewrite (Hmedium eq_refl). reflexivity.
  - apply Hclamp. vm_compute. reflexivity.
Defined.

(** C4 fails as stated: from the largest finite [double] (which is [>= 1.0])
    a "High" instrument that draws offset [+100] overflows to infinity, and
    a following draw of offset [0] gives [0 * inf = NaN], which the test
    [currentPrice < 1] lets through; [NaN >= 1.0] is false. *)
Lemma price_floor_counterexample :
  let s0 := new_SimulatedStock 1 "X" DBL_MAX "High" in
  let rnd := fun k : nat => match k with O => 200 | _ => 100 end in
  geb (getPrice s0) d1 = true
  /\ rand_offset (rnd 0%nat) = 100 /\ rand_offset (rnd 1%nat) = 0
  /\ getPrice (updatePrice_n 1 s0 rnd 0) = S754_infinity false
  /\ getPrice (updatePrice_n 2 s0 rnd 0) = S754_nan
  /\ geb (getPrice (updatePrice_n 2 s0 rnd 0)) d1 = false.
Proof. vm_compute. repeat split; reflexivity. Qed.

(** Overflow is within reach of the market of [main]: "META" starts at
    [643.0]; 3858 days at offset [+100] take it to infinity, and one more
    day at offset [0] makes its price NaN.  The last three entries of its
    price history are a finite price, infinity and NaN. *)
Lemma meta_price_overflow :
  let rnd := fun k : nat => if Nat.ltb k 3858 then 200 else 100 in
  getPrice meta = of_Z 643
  /\ skipn 3857 (getHistory (updatePrice_n 3859 meta rnd 0))
     = [S754_finite false 8131135322735570 971; S754_infinity false; S754_nan].
Proof. vm_compute. split; reflexivity. Qed.

(** C4 (amended): after any number of [updatePrice] calls starting from an
    initial price [>= 1.0], the price is never below [1.0]: it is [>= 1.0]
    or it is NaN, and a call made on a finite price always leaves a price
    [>= 1.0] (so NaN can only follow an overflow to infinity). *)
Theorem price_never_below_one :
  forall (s : SimulatedStock) (N : nat) (rnd : nat -> Z) (k : nat),
    geb (getPrice s) d1 = true ->
    let p := getPrice (updatePrice_n N s rnd k) in
    ltb p d1 = false
    /\ (geb p d1 = true \/ p = S754_nan)
    /\ (is_finite p = true ->
        geb (getPrice (updatePrice_n (S N) s rnd k)) d1 = true).
Proof.
  intros s N rnd k H p.
  assert (F : ltb p d1 = false).
  { apply updatePrice_n_floor. apply (leb_not_gtb (currentPrice s) d1 H). }
  split; [exact F|]. split; [exact (not_ltb_one p F)|].
  intros Hfin. rewrite updatePrice_n_snoc.
  unfold getPrice, updatePrice. simpl currentPrice.
  fold (getPrice (updatePrice_n N s rnd k)). fold p.
  destruct (not_ltb_one _ (next_price_floor
              (riskLevel (updatePrice_n N s rnd k)) p
              (rand_offset (rnd (k + N)%nat)))) as [Hge | Hnan].
  - exact Hge.
  - pose proof (next_price_not_nan
                  (riskLevel (updatePrice_n N s rnd k)) p
                  (rand_offset (rnd (k + N)%nat)) Hfin) as Hn.
    rewrite Hnan in Hn. discriminate Hn.
Qed.

Lemma price_never_below_one_witness :
  geb (getPrice apple) d1 = true
  /\ geb (getPrice (updatePrice_n 3 apple (fun k => Z.of_nat (37 * k + 11)) 0))
         d1 = true
  /\ geb (getPrice (updatePrice_n 4 apple (fun k => Z.of_nat (37 * k + 11)) 0))
         d1 = true.
Proof.
  assert (H0 : geb (getPrice apple) d1 = true) by (vm_compute; reflexivity).
  pose proof (price_never_below_one apple 3
                (fun k => Z.of_nat (37 * k + 11)) 0 H0) as H.
  cbv zeta in H. destruct H as (_ & Hnow & Hnext).
  split; [exact H0|]. split.
  - destruct Hnow as [Hge | Hnan]; [exact Hge|].
    vm_compute in Hnan. discriminate Hnan.
  - apply Hnext. vm_compute. reflexivity.
Defined.

(** * The portfolio *)

Lemma wrap_in_range (z : Z) : CInt.in_range z -> CInt.wrap z = z.
Proof.
  unfold CInt.in_range, CInt.INT_MIN, CInt.INT_MAX, CInt.wrap. intros H.
  rewrite Z.mod_small; lia.
Qed.

Section SellFacts.

Variables (stockName : string) (qty : Z) (bal : double).

(** The scan passes over positions with another name. *)
Lemma sellStock_loop_skip (l1 : list UserOwnedStock) :
  forall scanned rest,
    absent stockName l1 ->
    sellStock_loop bal scanned (l1 ++ rest) stockName qty
    = sellStock_loop bal (scanned ++ l1) rest stockName qty.
Proof.
  induction l1 as [|o l1 IH]; intros scanned rest Habs; simpl.
  - now rewrite app_nil_r.
  - inversion Habs as [|? ? Hne Hrest]; subst.
    apply String.eqb_neq in Hne. unfold owned_name in Hne. rewrite Hne.
    rewrite (IH (scanned ++ [o]) rest Hrest).
    now rewrite <- app_assoc.
Qed.

Lemma sellStock_loop_absent (l : list UserOwnedStock) :
  forall scanned,
    absent stockName l ->
    sellStock_loop bal scanned l stockName qty
    = ({| balance := bal; ownedStocks := scanned ++ l |}, [msg_not_found]).
Proof.
  intros scanned Habs.
  rewrite <- (app_nil_r l) at 1.
  rewrite (sellStock_loop_skip l scanned [] Habs). reflexivity.
Qed.

(** The position found first decides the outcome. *)
Lemma sellStock_loop_found (l1 l2 : list UserOwnedStock) (o : UserOwnedStock) :
  absent stockName l1 ->
  owned_name o = stockName ->
  sellStock_loop bal [] (l1 ++ o :: l2) stockName qty
  = if qty <=? quantity o then
      let bal' := add bal (mul (of_Z qty) (currentPrice (stock o))) in
      let q' := CInt.sub (quantity o) qty in
      if q' =? 0
      then ({| balance := bal'; ownedStocks := l1 ++ l2 |}, [])
      else ({| balance := bal';
               ownedStocks := l1 ++ {| stock := stock o; quantity := q' |} :: l2 |},
            [])
    else ({| balance := bal; ownedStocks := l1 ++ o :: l2 |},
          [msg_not_enough_quantity]).
Proof.
  intros Habs Hname.
  rewrite (sellStock_loop_skip l1 [] (o :: l2) Habs). simpl.
  apply String.eqb_eq in Hname. unfold owned_name in Hname. rewrite Hname.
  unfold getQuantity, sell, getPrice.
  destruct (qty <=? quantity o); [|reflexivity].
  simpl. destruct (CInt.sub (quantity o) qty =? 0); reflexivity.
Qed.

End SellFacts.

Section BuyFacts.

Variables (sname : string) (qty : Z).

Lemma buyStock_loop_skip (l1 : list UserOwnedStock) :
  forall scanned rest,
    absent sname l1 ->
    buyStock_loop scanned (l1 ++ rest) sname qty
    = buyStock_loop (scanned ++ l1) rest sname qty.
Proof.
  induction l1 as [|o l1 IH]; intros scanned rest Habs; simpl.
  - now rewrite app_nil_r.
  - inversion Habs as [|? ? Hne Hrest]; subst.
    apply String.eqb_neq in Hne. unfold owned_name in Hne. rewrite Hne.
    rewrite (IH (scanned ++ [o]) rest Hrest).
    now rewrite <- app_assoc.
Qed.

Lemma buyStock_loop_absent (l : list UserOwnedStock) :
  absent sname l -> buyStock_loop [] l sname qty = None.
Proof.
  intros Habs. rewrite <- (app_nil_r l).
  now rewrite (buyStock_loop_skip l [] [] Habs).
Qed.

Lemma buyStock_loop_found (l1 l2 : list UserOwnedStock) (o : UserOwnedStock) :
  absent sname l1 ->
  owned_name o = sname ->
  buyStock_loop [] (l1 ++ o :: l2) sname qty = Some (l1 ++ buy o qty :: l2).
Proof.
  intros Habs Hname.
  rewrite (buyStock_loop_skip l1 [] (o :: l2) Habs). simpl.
  apply String.eqb_eq in Hname. unfold owned_name in Hname.
  now rewrite Hname.
Qed.

End BuyFacts.

(** Either no position has the name, or there is a first one that has it. *)
Lemma first_match_split (n : string) (l : list UserOwnedStock) :
  absent n l
  \/ exists l1 o l2, l = l1 ++ o :: l2 /\ absent n l1 /\ owned_name o = n.
Proof.
  induction l as [|o l IH].
  - left. constructor.
  - destruct (String.eqb_spec (owned_name o) n) as [He|Hne].
    + right. exists [], o, l. repeat split; [constructor | exact He].
    + destruct IH as [Habs | (l1 & o' & l2 & Hl & Habs & Hname)].
      * left. constructor; assumption.
      * right. exists (o :: l1), o', l2. subst l.
        repeat split; [constructor; assumption | exact Hname].
Qed.

(** Case analysis on the position that a scan for the name [n] stops at. *)
Ltac first_match n l :=
  let Habs := fresh "Habs" in
  let l1 := fresh "l1" in
  let l2 := fresh "l2" in
  let o := fresh "o" in
  let Hl := fresh "Hl" in
  let Hname := fresh "Hname" in
  destruct (first_match_split n l)
    as [Habs | (l1 & o & l2 & Hl & Habs & Hname)].

(** C7: when no owned position has name [n], [sellStock n q] leaves balance
    and positions unchanged and prints the message "Stock not found in
    portfolio." *)
Theorem sellStock_unknown_name :
  forall (u : UserPortfolio) (n : string) (q : Z),
    absent n (ownedStocks u) ->
    sellStock u n q = (u, [msg_not_found]).
Proof.
  intros [bal l] n q Habs. unfold sellStock. simpl in *.
  now rewrite (sellStock_loop_absent n q bal l [] Habs).
Qed.

Lemma sellStock_unknown_name_witness :
  let u := fst (buyStock default_UserPortfolio apple 2) in
  sellStock u "Google" 1 = (u, [msg_not_found]).
Proof.
  apply (sellStock_unknown_name
           (fst (buyStock default_UserPortfolio apple 2)) "Google" 1).
  repeat constructor. vm_compute. discriminate.
Defined.

(** C3: let the portfolio hold a position [o] with name [n], price [cp] and
    quantity [Q], the first one with that name.  For [q <= Q] (and [Q - q]
    representable in [int]), [sellStock n q] adds exactly [q * cp] to the
    balance, sets the quantity of the position to [Q - q], and removes the
    position if and only if [Q - q = 0]; nothing is printed.  For [q > Q]
    the portfolio is unchanged and "Not enough quantity." is printed. *)
Theorem sellStock_owned_position :
  forall (u : UserPortfolio) (l1 l2 : list UserOwnedStock) (o : UserOwnedStock)
         (n : string) (q : Z),
    ownedStocks u = l1 ++ o :: l2 ->
    absent n l1 ->
    owned_name o = n ->
    let Q := getQuantity o in
    let cp := getPrice (stock o) in
    (q <= Q -> CInt.in_range (Q - q) ->
       let u' := fst (sellStock u n q) in
       getBalance u' = add (getBalance u) (mul (of_Z q) cp)
       /\ (Q - q = 0 -> ownedStocks u' = l1 ++ l2)
       /\ (Q - q <> 0 ->
           ownedStocks u' = l1 ++ {| stock := stock o; quantity := Q - q |} :: l2)
       /\ snd (sellStock u n q) = [])
    /\ (q > Q -> sellStock u n q = (u, [msg_not_enough_quantity])).
Proof.
  intros [bal l] l1 l2 o n q Hl Habs Hname Q cp. simpl in Hl. subst l.
  subst Q cp. unfold sellStock, getQuantity, getPrice, getBalance.
  simpl balance. simpl ownedStocks.
  rewrite (sellStock_loop_found n q bal l1 l2 o Habs Hname).
  split.
  - intros Hle Hrange.
    assert (E : (q <=? quantity o) = true) by (apply Z.leb_le; exact Hle).
    rewrite E. cbv zeta. unfold CInt.sub. rewrite (wrap_in_range _ Hrange).
    destruct (quantity o - q =? 0) eqn:E0.
    + apply Z.eqb_eq in E0. simpl. repeat split; try reflexivity.
      intros Hne. contradiction.
    + apply Z.eqb_neq in E0. simpl. repeat split; try reflexivity.
      intros He. contradiction.
  - intros Hgt.
    assert (E : (q <=? quantity o) = false) by (apply Z.leb_gt; lia).
    rewrite E. reflexivity.
Qed.

Lemma sellStock_owned_position_witness :
  let u := fst (buyStock default_UserPortfolio apple 2) in
  getBalance (fst (sellStock u "Apple" 2)) = d3000
  /\ ownedStocks (fst (sellStock u "Apple" 2)) = []
  /\ sellStock u "Apple" 3 = (u, [msg_not_enough_quantity]).
Proof.
  pose proof (sellStock_owned_position
                (fst (buyStock default_UserPortfolio apple 2))
                [] [] (new_UserOwnedStock apple 2) "Apple" 2
                eq_refl (Forall_nil _) eq_refl) as [Hsell _].
  pose proof (sellStock_owned_position
                (fst (buyStock default_UserPortfolio apple 2))
                [] [] (new_UserOwnedStock apple 2) "Apple" 3
                eq_refl (Forall_nil _) eq_refl) as [_ Hrefuse].
  cbv zeta in *.
  destruct Hsell as (Hbal & Hgone & _ & _).
  - vm_compute. discriminate.
  - vm_compute. split; discriminate.
  - split; [rewrite Hbal; vm_compute; reflexivity|].
    split; [apply Hgone; reflexivity|].
    apply Hrefuse. reflexivity.
Defined.

(** C2: with [total = price * q] as the code computes it,
    - when [balance >= total] the purchase debits exactly [total] and either
      adds [q] to the quantity of the existing position of the same name
      (the sum being representable in [int]) or, when there is none, appends
      a new position of quantity [q]; nothing is printed;
    - when [balance < total] the portfolio is unchanged (and "Insufficient
      balance." is printed);
    - from the default balance [3000.0], buying 2 shares priced [211.0]
      gives balance [2578.0] and one position of quantity 2, and buying 100
      shares is rejected with the balance still [3000.0]. *)
Theorem buyStock_correct :
  (forall (u : UserPortfolio) (s : SimulatedStock) (q : Z)
          (l1 l2 : list UserOwnedStock) (o : UserOwnedStock),
      geb (getBalance u) (mul (getPrice s) (of_Z q)) = true ->
      ownedStocks u = l1 ++ o :: l2 ->
      absent (getName s) l1 ->
      owned_name o = getName s ->
      CInt.in_range (getQuantity o + q) ->
      buyStock u s q
      = ({| balance := sub (getBalance u) (mul (getPrice s) (of_Z q));
            ownedStocks :=
              l1 ++ {| stock := stock o; quantity := getQuantity o + q |} :: l2 |},
         []))
  /\ (forall (u : UserPortfolio) (s : SimulatedStock) (q : Z),
      geb (getBalance u) (mul (getPrice s) (of_Z q)) = true ->
      absent (getName s) (ownedStocks u) ->
      buyStock u s q
      = ({| balance := sub (getBalance u) (mul (getPrice s) (of_Z q));
            ownedStocks :=
              ownedStocks u
              ++ [ {| stock := new_SimulatedStock (getId s) (getName s)
                                 (getPrice s) (getRiskLevel s);
                      quantity := q |} ] |},
         []))
  /\ (forall (u : UserPortfolio) (s : SimulatedStock) (q : Z),
      ltb (getBalance u) (mul (getPrice s) (of_Z q)) = true ->
      buyStock u s q = (u, [msg_insufficient_balance]))
  /\ (getPrice apple = of_Z 211
      /\ getBalance default_UserPortfolio = of_Z 3000
      /\ getBalance (fst (buyStock default_UserPortfolio apple 2)) = of_Z 2578
      /\ map getQuantity (ownedStocks (fst (buyStock default_UserPortfolio apple 2)))
         = [2])
  /\ buyStock default_UserPortfolio apple 100
     = (default_UserPortfolio, [msg_insufficient_balance]).
Proof.
  split; [|split; [|split; [|split]]].
  - intros [bal l] s q l1 l2 o Hge Hl Habs Hname Hrange.
    unfold getBalance, getQuantity in *. simpl in Hge, Hl. subst l.
    unfold buyStock. simpl balance. simpl ownedStocks.
    rewrite (leb_not_gtb _ _ Hge).
    rewrite (buyStock_loop_found (getName s) q l1 l2 o Habs Hname).
    unfold buy, CInt.add. now rewrite (wrap_in_range _ Hrange).
  - intros [bal l] s q Hge Habs.
    unfold getBalance in *. simpl in Hge, Habs.
    unfold buyStock. simpl balance. simpl ownedStocks.
    rewrite (leb_not_gtb _ _ Hge).
    now rewrite (buyStock_loop_absent (getName s) q l Habs).
  - intros u s q Hlt. unfold buyStock, gtb.
    unfold ltb, getBalance in Hlt. now rewrite Hlt.
  - vm_compute. repeat split; reflexivity.
  - vm_compute. reflexivity.
Qed.

Lemma buyStock_correct_witness :
  let u := fst (buyStock default_UserPortfolio apple 2) in
  buyStock default_UserPortfolio apple 2
  = ({| balance := of_Z 2578; ownedStocks := [new_UserOwnedStock apple 2] |}, [])
  /\ buyStock u apple 3
     = ({| balance := of_Z 1945;
           ownedStocks := [ {| stock := stock (new_UserOwnedStock apple 2);
                               quantity := 5 |} ] |}, [])
  /\ buyStock u apple 100 = (u, [msg_insufficient_balance]).
Proof.
  destruct buyStock_correct as (Hadd & Hnew & Hreject & _ & _).
  cbv zeta. split; [|split].
  - rewrite (Hnew default_UserPortfolio apple 2);
      [vm_compute; reflexivity | vm_compute; reflexivity | constructor].
  - rewrite (Hadd (fst (buyStock default_UserPortfolio apple 2)) apple 3
               [] [] (new_UserOwnedStock apple 2)).
    + vm_compute. reflexivity.
    + vm_compute. reflexivity.
    + reflexivity.
    + constructor.
    + reflexivity.
    + vm_compute. split; discriminate.
  - apply Hreject. vm_compute. reflexivity.
Defined.

(** C9: [buyStock] has no lower bound on the quantity.  For a price [p > 0],
    a quantity [q < 0] and a balance [>= 0], the test [total > balance] is
    false, the purchase is accepted without a message, the balance becomes
    [balance + p * |q|], and when no position has the instrument's name a
    new position of quantity [q] is appended. *)
Theorem buyStock_negative_quantity :
  forall (u : UserPortfolio) (s : SimulatedStock) (q : Z),
    gtb (getPrice s) d0 = true ->
    q < 0 ->
    geb (getBalance u) d0 = true ->
    gtb (mul (getPrice s) (of_Z q)) (getBalance u) = false
    /\ snd (buyStock u s q) = []
    /\ getBalance (fst (buyStock u s q))
       = add (getBalance u) (mul (getPrice s) (of_Z (Z.abs q)))
    /\ (absent (getName s) (ownedStocks u) ->
        ownedStocks (fst (buyStock u s q))
        = ownedStocks u ++ [new_UserOwnedStock s q]
        /\ getQuantity (new_UserOwnedStock s q) = q).
Proof.
  intros u s q Hp Hq Hb.
  assert (Hcheck : gtb (mul (getPrice s) (of_Z q)) (getBalance u) = false).
  { apply negative_not_above; [exact Hb|].
    apply mul_positive_negative; [exact Hp|].
    apply of_Z_negative_sign. exact Hq. }
  assert (Hbal : sub (balance u) (mul (getPrice s) (of_Z q))
                 = add (getBalance u) (mul (getPrice s) (of_Z (Z.abs q)))).
  { rewrite sub_add_opp, <- mul_opp_r, <- (of_Z_opp q Hq).
    now rewrite (Z.abs_neq q) by lia. }
  split; [exact Hcheck|].
  unfold buyStock. unfold getBalance in Hcheck at 1. rewrite Hcheck.
  destruct (buyStock_loop [] (ownedStocks u) (getName s) q) as [l|] eqn:El;
    simpl; (split; [reflexivity|]); (split; [exact Hbal|]); intros Habs;
    rewrite (buyStock_loop_absent _ q _ Habs) in El.
  - discriminate El.
  - split; reflexivity.
Qed.

Lemma buyStock_negative_quantity_witness :
  getBalance (fst (buyStock default_UserPortfolio apple (-1))) = of_Z 3211
  /\ map getQuantity (ownedStocks (fst (buyStock default_UserPortfolio apple (-1))))
     = [-1].
Proof.
  destruct (buyStock_negative_quantity default_UserPortfolio apple (-1))
    as (_ & _ & Hbal & Hnew).
  - reflexivity.
  - lia.
  - reflexivity.
  - split.
    + rewrite Hbal. vm_compute. reflexivity.
    + destruct Hnew as [Hl _]; [constructor|]. rewrite Hl. reflexivity.
Defined.

(** [sellStock] keeps the portfolio free of positions of quantity 0: it
    erases the position it empties. *)
Lemma sellStock_no_zero_quantity (u : UserPortfolio) (n : string) (q : Z) :
  no_zero_quantity (ownedStocks u) ->
  no_zero_quantity (ownedStocks (fst (sellStock u n q))).
Proof.
  unfold no_zero_quantity, sellStock. intros Hnz.
  first_match n (ownedStocks u).
  - now rewrite (sellStock_loop_absent _ q _ _ [] Habs).
  - rewrite Hl in *.
    rewrite (sellStock_loop_found _ q _ l1 l2 o Habs Hname).
    destruct (q <=? quantity o); [|exact Hnz].
    cbv zeta. apply Forall_app in Hnz. destruct Hnz as [H1 H2].
    inversion H2 as [|? ? _ H3]; subst.
    destruct (CInt.sub (quantity o) q =? 0) eqn:E; simpl;
      apply Forall_app; split; try assumption.
    constructor; [|exact H3]. simpl. now apply Z.eqb_neq.
Qed.

(** C1 does not hold of [buyStock]: nothing rejects a quantity of 0, so
    buying 0 shares of an instrument that is not owned appends a position of
    quantity 0; and buying [-2] shares of a position of quantity 2 leaves it
    in the portfolio with quantity 0.  Only [sellStock] erases a position
    whose quantity reached 0. *)
Theorem buyStock_retains_zero_quantity :
  (snd (buyStock default_UserPortfolio apple 0) = []
   /\ map getQuantity (ownedStocks (fst (buyStock default_UserPortfolio apple 0)))
      = [0])
  /\ (let u := fst (buyStock default_UserPortfolio apple 2) in
      map getQuantity (ownedStocks u) = [2]
      /\ snd (buyStock u apple (-2)) = []
      /\ map getQuantity (ownedStocks (fst (buyStock u apple (-2)))) = [0]).
Proof. vm_compute. repeat split; reflexivity. Qed.

(** * Invariants of the portfolio *)

Section NameFacts.

Lemma absent_not_in (n : string) (l : list UserOwnedStock) :
  absent n l -> ~ In n (names l).
Proof.
  unfold absent, names. intros Habs Hin.
  apply in_map_iff in Hin. destruct Hin as (o & Ho & Hin).
  rewrite Forall_forall in Habs. exact (Habs o Hin Ho).
Qed.

Lemma NoDup_snoc (n : string) (l : list string) :
  NoDup l -> ~ In n l -> NoDup (l ++ [n]).
Proof.
  induction l as [|a l IH]; intros Hnd Hni; simpl.
  - constructor; [intros [] | constructor].
  - inversion Hnd as [|? ? Ha Hl]; subst. constructor.
    + rewrite in_app_iff. intros [Hin | [He | []]].
      * exact (Ha Hin).
      * apply Hni. left. symmetry. exact He.
    + apply IH; [exact Hl | intros Hin; apply Hni; right; exact Hin].
Qed.

Lemma buyStock_names (u : UserPortfolio) (s : SimulatedStock) (qty : Z) :
  NoDup (names (ownedStocks u)) ->
  NoDup (names (ownedStocks (fst (buyStock u s qty)))).
Proof.
  intros Hnd. unfold buyStock.
  destruct (gtb _ (balance u)); [exact Hnd|].
  first_match (getName s) (ownedStocks u).
  - rewrite (buyStock_loop_absent _ qty _ Habs). simpl.
    unfold names. rewrite map_app. simpl.
    apply NoDup_snoc; [exact Hnd | exact (absent_not_in _ _ Habs)].
  - rewrite Hl in *.
    rewrite (buyStock_loop_found _ qty l1 l2 o Habs Hname). simpl.
    unfold names in *. rewrite map_app in *. exact Hnd.
Qed.

Lemma sellStock_names (u : UserPortfolio) (stockName : string) (qty : Z) :
  NoDup (names (ownedStocks u)) ->
  NoDup (names (ownedStocks (fst (sellStock u stockName qty)))).
Proof.
  intros Hnd. unfold sellStock.
  first_match stockName (ownedStocks u).
  - now rewrite (sellStock_loop_absent _ qty _ _ [] Habs).
  - rewrite Hl in *.
    rewrite (sellStock_loop_found _ qty _ l1 l2 o Habs Hname).
    destruct (qty <=? quantity o); [|exact Hnd].
    cbv zeta. destruct (CInt.sub (quantity o) qty =? 0); simpl.
    + unfold names in *. rewrite map_app in *. simpl in Hnd.
      exact (NoDup_remove_1 _ _ _ Hnd).
    + unfold names in *. rewrite map_app in *. exact Hnd.
Qed.

Lemma updatePrices_loop_names (l : list UserOwnedStock) :
  forall rnd k, names (fst (updatePrices_loop l rnd k)) = names l.
Proof.
  induction l as [|o l IH]; intros rnd k; simpl; [reflexivity|].
  specialize (IH rnd (S k)).
  destruct (updatePrices_loop l rnd (S k)) as [l' k']. simpl in *.
  now rewrite IH.
Qed.

Lemma updatePrices_names (u : UserPortfolio) (rnd : nat -> Z) (k : nat) :
  names (ownedStocks (fst (updatePrices u rnd k))) = names (ownedStocks u).
Proof.
  unfold updatePrices.
  pose proof (updatePrices_loop_names (ownedStocks u) rnd k) as H.
  destruct (updatePrices_loop (ownedStocks u) rnd k) as [l' k']. exact H.
Qed.

End NameFacts.

(** C10: in every portfolio reachable from an empty one by [buyStock],
    [sellStock] and [updatePrices], the names of the owned positions are
    pairwise distinct. *)
Theorem reachable_names_distinct :
  forall u : UserPortfolio, reachable u -> NoDup (names (ownedStocks u)).
Proof.
  intros u Hr. induction Hr as [b | u s qty _ IH | u n qty _ IH | u rnd k _ IH].
  - constructor.
  - exact (buyStock_names u s qty IH).
  - exact (sellStock_names u n qty IH).
  - rewrite updatePrices_names. exact IH.
Qed.

Lemma reachable_names_distinct_witness :
  let u1 := fst (buyStock default_UserPortfolio apple 2) in
  let u2 := fst (buyStock u1 (nth 2 market0 apple) 1) in
  let u3 := fst (updatePrices u2 (fun k => Z.of_nat (17 * k + 5)) 0) in
  let u4 := fst (buyStock u3 apple 1) in
  names (ownedStocks u4) = ["Apple"; "Amazon"]%string
  /\ NoDup (names (ownedStocks u4)).
Proof.
  split; [vm_compute; reflexivity|].
  apply reachable_names_distinct.
  apply reach_buy. apply reach_update. apply reach_buy. apply reach_buy.
  apply reach_new.
Defined.

(** * The buy branch of the menu *)

(** C8: in the buy branch of the menu, for every entered [id] (an [int]):
    when [1 <= id <= market.size()] the market is indexed at [id - 1], inside
    the vector, and the purchase is attempted on that stock; for any other
    [id] "Invalid ID." is printed, the market is not indexed and the
    portfolio is unchanged. *)
Theorem main_case2_id_check :
  forall (market : list SimulatedStock) (user : UserPortfolio) (id qty : Z),
    CInt.in_range id ->
    (1 <= id <= Z.of_nat (List.length market) ->
       exists s, nth_error market (Z.to_nat (id - 1)) = Some s
                 /\ main_case2 market user id qty = Some (buyStock user s qty))
    /\ (~ (1 <= id <= Z.of_nat (List.length market)) ->
        main_case2 market user id qty = Some (user, [msg_invalid_id])).
Proof.
  intros market user i qty Hr. unfold main_case2.
  unfold CInt.in_range, CInt.INT_MIN, CInt.INT_MAX in Hr.
  split.
  - intros [H1 H2].
    assert (Hs : CInt.to_size_t i = i)
      by (unfold CInt.to_size_t; apply Z.mod_small; lia).
    rewrite Hs.
    assert (E1 : (1 <=? i) = true) by (apply Z.leb_le; exact H1).
    assert (E2 : (i <=? Z.of_nat (List.length market)) = true)
      by (apply Z.leb_le; exact H2).
    rewrite E1, E2. simpl.
    destruct (nth_error market (Z.to_nat (i - 1))) as [s|] eqn:En.
    + exists s. split; reflexivity.
    + apply nth_error_None in En. lia.
  - intros Hout.
    destruct (1 <=? i) eqn:E1; [|reflexivity].
    apply Z.leb_le in E1.
    assert (Hs : CInt.to_size_t i = i)
      by (unfold CInt.to_size_t; apply Z.mod_small; lia).
    rewrite Hs.
    assert (E2 : (i <=? Z.of_nat (List.length market)) = false)
      by (apply Z.leb_gt; lia).
    rewrite E2. reflexivity.
Qed.

Lemma main_case2_id_check_witness :
  main_case2 market0 default_UserPortfolio 1 2
  = Some (buyStock default_UserPortfolio apple 2)
  /\ main_case2 market0 default_UserPortfolio 10 2
     = Some (default_UserPortfolio, [msg_invalid_id])
  /\ main_case2 market0 default_UserPortfolio 0 2
     = Some (default_UserPortfolio, [msg_invalid_id]).
Proof.
  assert (R : forall z, -2147483648 <= z <= 2147483647 -> CInt.in_range z)
    by (intros z Hz; exact Hz).
  destruct (main_case2_id_check market0 default_UserPortfolio 1 2
              (R 1 ltac:(lia))) as [Hin _].
  destruct (main_case2_id_check market0 default_UserPortfolio 10 2
              (R 10 ltac:(lia))) as [_ Hhigh].
  destruct (main_case2_id_check market0 default_UserPortfolio 0 2
              (R 0 ltac:(lia))) as [_ Hlow].
  split; [|split].
  - destruct Hin as (s & Hs & Hres); [simpl; lia|].
    rewrite Hres. simpl in Hs. injection Hs as <-. reflexivity.
  - apply Hhigh. simpl. lia.
  - apply Hlow. simpl. lia.
Defined.

(** * Further properties of the portfolio operations *)

Section LookupFacts.

Lemma find_owned_absent (n : string) (l : list UserOwnedStock) :
  absent n l -> find_owned n l = None.
Proof.
  unfold find_owned. induction 1 as [|o l Hne _ IH]; simpl; [reflexivity|].
  apply String.eqb_neq in Hne. now rewrite Hne.
Qed.

Lemma find_owned_skip (n : string) (l1 l2 : list UserOwnedStock) :
  absent n l1 -> find_owned n (l1 ++ l2) = find_owned n l2.
Proof.
  unfold find_owned. induction 1 as [|o l Hne _ IH]; simpl; [reflexivity|].
  apply String.eqb_neq in Hne. now rewrite Hne.
Qed.

Lemma find_owned_found (n : string) (l1 l2 : list UserOwnedStock)
    (o : UserOwnedStock) :
  absent n l1 -> owned_name o = n -> find_owned n (l1 ++ o :: l2) = Some o.
Proof.
  intros Habs Hname. rewrite (find_owned_skip n l1 _ Habs).
  unfold find_owned. simpl. apply String.eqb_eq in Hname. now rewrite Hname.
Qed.

(** A lookup does not see positions of another name. *)
Lemma find_owned_drop (n : string) (l1 l2 : list UserOwnedStock)
    (x : UserOwnedStock) :
  owned_name x <> n -> find_owned n (l1 ++ x :: l2) = find_owned n (l1 ++ l2).
Proof.
  intros Hne. apply String.eqb_neq in Hne. unfold find_owned.
  induction l1 as [|a l1 IH]; simpl.
  - now rewrite Hne.
  - destruct (String.eqb (owned_name a) n); [reflexivity | exact IH].
Qed.

Lemma find_owned_snoc (n : string) (l : list UserOwnedStock)
    (x : UserOwnedStock) :
  owned_name x <> n -> find_owned n (l ++ [x]) = find_owned n l.
Proof.
  intros Hne. rewrite (find_owned_drop n l [] x Hne). now rewrite app_nil_r.
Qed.

(** The outcome of [sellStock] from the position its scan stops at. *)
Lemma sellStock_cases (u : UserPortfolio) (n : string) (q : Z) :
  (find_owned n (ownedStocks u) = None
   /\ sellStock u n q = (u, [msg_not_found]))
  \/ (exists l1 o l2,
        ownedStocks u = l1 ++ o :: l2 /\ absent n l1 /\ owned_name o = n
        /\ find_owned n (ownedStocks u) = Some o
        /\ ((q > quantity o /\ sellStock u n q = (u, [msg_not_enough_quantity]))
            \/ (q <= quantity o
                /\ snd (sellStock u n q) = []
                /\ balance (fst (sellStock u n q))
                   = add (balance u) (mul (of_Z q) (currentPrice (stock o)))
                /\ ownedStocks (fst (sellStock u n q))
                   = if CInt.sub (quantity o) q =? 0 then l1 ++ l2
                     else l1 ++ {| stock := stock o;
                                   quantity := CInt.sub (quantity o) q |} :: l2))).
Proof.
  destruct u as [bal l]. unfold sellStock. simpl balance. simpl ownedStocks.
  first_match n l.
  - left. split; [exact (find_owned_absent n l Habs)|].
    now rewrite (sellStock_loop_absent n q bal l [] Habs).
  - right. exists l1, o, l2. subst l.
    repeat split; try assumption; [exact (find_owned_found n l1 l2 o Habs Hname)|].
    rewrite (sellStock_loop_found n q bal l1 l2 o Habs Hname).
    destruct (q <=? quantity o) eqn:E.
    + right. apply Z.leb_le in E. split; [exact E|]. cbv zeta.
      destruct (CInt.sub (quantity o) q =? 0); simpl; repeat split; reflexivity.
    + left. apply Z.leb_gt in E. split; [lia | reflexivity].
Qed.

(** The outcome of [buyStock] from the position its scan stops at. *)
Lemma buyStock_cases (u : UserPortfolio) (s : SimulatedStock) (q : Z) :
  let total := mul (getPrice s) (of_Z q) in
  (gtb total (balance u) = true
   /\ buyStock u s q = (u, [msg_insufficient_balance]))
  \/ (gtb total (balance u) = false
      /\ snd (buyStock u s q) = []
      /\ balance (fst (buyStock u s q)) = sub (balance u) total
      /\ ((absent (getName s) (ownedStocks u)
           /\ ownedStocks (fst (buyStock u s q))
              = ownedStocks u ++ [new_UserOwnedStock s q])
          \/ (exists l1 o l2,
                ownedStocks u = l1 ++ o :: l2
                /\ absent (getName s) l1 /\ owned_name o = getName s
                /\ ownedStocks (fst (buyStock u s q)) = l1 ++ buy o q :: l2))).
Proof.
  intros total. unfold buyStock. fold total.
  destruct (gtb total (balance u)) eqn:E; [left; split; reflexivity|].
  right. split; [reflexivity|].
  first_match (getName s) (ownedStocks u).
  - rewrite (buyStock_loop_absent _ q _ Habs). simpl.
    repeat split. left. split; [exact Habs | reflexivity].
  - rewrite Hl. rewrite (buyStock_loop_found _ q l1 l2 o Habs Hname). simpl.
    repeat split. right. exists l1, o, l2. repeat split; assumption.
Qed.

End LookupFacts.

(** Disequalities between the names of positions. *)
Ltac name_neq :=
  cbv [owned_name getName new_UserOwnedStock new_SimulatedStock buy stock name]
    in *;
  congruence.

(** X1: [sellStock] prints nothing, "Not enough quantity." or "Stock not
    found in portfolio.", and never the message of [UserOwnedStock::sell]
    (its [else] branch cannot be reached from [sellStock]).  It prints
    nothing exactly when the name is owned with a quantity of at least
    [q]; whenever it prints a message the portfolio is unchanged. *)
Theorem sellStock_messages :
  forall (u : UserPortfolio) (n : string) (q : Z),
    let out := snd (sellStock u n q) in
    (out = [] \/ out = [msg_not_enough_quantity] \/ out = [msg_not_found])
    /\ ~ In msg_not_enough_stock out
    /\ (out = [] <->
        exists o, find_owned n (ownedStocks u) = Some o /\ q <= getQuantity o)
    /\ (out <> [] -> fst (sellStock u n q) = u).
Proof.
  intros u n q out. subst out.
  destruct (sellStock_cases u n q)
    as [[Hnone Hs] | (l1 & o & l2 & _ & _ & _ & Hsome & [[Hgt Hs] | (Hle & Hout & _)])].
  - rewrite Hs. simpl. split; [right; right; reflexivity|].
    split; [intros [H|[]]; vm_compute in H; discriminate H|].
    split; [|reflexivity].
    split; [discriminate|]. intros (o & Ho & _). congruence.
  - rewrite Hs. simpl. split; [right; left; reflexivity|].
    split; [intros [H|[]]; vm_compute in H; discriminate H|].
    split; [|reflexivity].
    split; [discriminate|]. intros (o' & Ho & Hq).
    rewrite Hsome in Ho. injection Ho as <-. unfold getQuantity in Hq. lia.
  - rewrite Hout. split; [left; reflexivity|].
    split; [intros []|]. split; [|intros H; now elim H].
    split; [|reflexivity]. intros _. exists o. split; assumption.
Qed.

(** X2: [buyStock] and [sellStock] touch only the position of the name they
    are given: the first position of any other name is the same before and
    after the call. *)
Theorem other_positions_untouched :
  forall (u : UserPortfolio) (s : SimulatedStock) (n other : string) (q : Z),
    (other <> getName s ->
     find_owned other (ownedStocks (fst (buyStock u s q)))
     = find_owned other (ownedStocks u))
    /\ (other <> n ->
        find_owned other (ownedStocks (fst (sellStock u n q)))
        = find_owned other (ownedStocks u)).
Proof.
  intros u s n other q. split; intros Hne.
  - destruct (buyStock_cases u s q)
      as [[_ Hs] | (_ & _ & _ & [[_ Hl] | (l1 & o & l2 & Hu & _ & Hname & Hl)])].
    + now rewrite Hs.
    + rewrite Hl. apply find_owned_snoc. name_neq.
    + rewrite Hl, Hu.
      rewrite (find_owned_drop other l1 l2 (buy o q)),
              (find_owned_drop other l1 l2 o); [reflexivity | | ]; name_neq.
  - destruct (sellStock_cases u n q)
      as [[_ Hs] | (l1 & o & l2 & Hu & _ & Hname & _ & [[_ Hs] | (_ & _ & _ & Hl)])].
    + now rewrite Hs.
    + now rewrite Hs.
    + rewrite Hl, Hu.
      rewrite (find_owned_drop other l1 l2 o) by name_neq.
      destruct (CInt.sub (quantity o) q =? 0); [reflexivity|].
      apply find_owned_drop. name_neq.
Qed.

Lemma other_positions_untouched_witness :
  let u1 := fst (buyStock default_UserPortfolio apple 2) in
  let u2 := fst (buyStock u1 meta 1) in
  find_owned "Apple" (ownedStocks (fst (sellStock u2 "META" 1)))
  = Some (new_UserOwnedStock apple 2)
  /\ find_owned "Apple" (ownedStocks (fst (buyStock u2 meta 1)))
     = Some (new_UserOwnedStock apple 2).
Proof.
  destruct (other_positions_untouched
              (fst (buyStock (fst (buyStock default_UserPortfolio apple 2)) meta 1))
              meta "META" "Apple" 1) as [Hbuy Hsell].
  cbv zeta. split.
  - rewrite Hsell; [vm_compute; reflexivity | discriminate].
  - rewrite Hbuy; [vm_compute; reflexivity | vm_compute; discriminate].
Defined.

Lemma mul_comm (x y : double) : mul x y = mul y x.
Proof.
  unfold mul.
  destruct x as [sx|sx| |sx mx ex], y as [sy|sy| |sy my ey];
    try reflexivity;
    try (destruct sx, sy; reflexivity).
  unfold SFmul.
  now rewrite (Pos.mul_comm mx my), (Z.add_comm ex ey), (Bool.xorb_comm sx sy).
Qed.

Lemma wrap_zero : CInt.sub 0 0 = 0 /\ forall q, CInt.sub q q = 0.
Proof.
  split; [reflexivity|]. intros q. unfold CInt.sub.
  now rewrite Z.sub_diag.
Qed.

(** X3: buying [q] shares of an instrument that is not owned and selling
    [q] shares of it right away gives back the positions as they were and
    prints nothing; the balance is debited and credited with the same
    amount [price * q].  This also holds for [q = 0] and for negative [q]:
    the sale erases the position that the purchase created. *)
Theorem buy_then_sell_restores_positions :
  forall (u : UserPortfolio) (s : SimulatedStock) (q : Z),
    absent (getName s) (ownedStocks u) ->
    gtb (mul (getPrice s) (of_Z q)) (getBalance u) = false ->
    let total := mul (getPrice s) (of_Z q) in
    snd (buyStock u s q) = []
    /\ sellStock (fst (buyStock u s q)) (getName s) q
       = ({| balance := add (sub (getBalance u) total) total;
             ownedStocks := ownedStocks u |}, []).
Proof.
  intros u s q Habs Hok total.
  destruct (buyStock_cases u s q)
    as [[Hrej _] | (_ & Hout & Hbal & [[_ Hl] | (l1 & o & l2 & Hu & _ & Hname & _)])].
  - unfold getBalance in Hok. congruence.
  - split; [exact Hout|].
    destruct (fst (buyStock u s q)) as [b1 l] eqn:E. simpl in Hbal, Hl.
    subst b1 l. unfold sellStock. simpl balance. simpl ownedStocks.
    rewrite (sellStock_loop_found (getName s) q _ (ownedStocks u) []
               (new_UserOwnedStock s q) Habs eq_refl).
    simpl quantity. rewrite Z.leb_refl. cbv zeta.
    rewrite (proj2 wrap_zero q). simpl.
    rewrite app_nil_r. unfold getPrice at 2. simpl currentPrice.
    fold (getPrice s). rewrite (mul_comm (of_Z q) (getPrice s)).
    reflexivity.
  - exfalso. rewrite Hu in Habs. apply Forall_app in Habs.
    destruct Habs as [_ Habs]. inversion Habs as [|? ? Hne _]. contradiction.
Qed.

Lemma buy_then_sell_restores_positions_witness :
  sellStock (fst (buyStock default_UserPortfolio apple 2)) "Apple" 2
  = (default_UserPortfolio, [])
  /\ sellStock (fst (buyStock default_UserPortfolio apple 0)) "Apple" 0
     = (default_UserPortfolio, []).
Proof.
  split.
  - destruct (buy_then_sell_restores_positions default_UserPortfolio apple 2)
      as [_ H]; [constructor | vm_compute; reflexivity |].
    cbv zeta in H. etransitivity; [exact H|]. vm_compute. reflexivity.
  - destruct (buy_then_sell_restores_positions default_UserPortfolio apple 0)
      as [_ H]; [constructor | vm_compute; reflexivity |].
    cbv zeta in H. etransitivity; [exact H|]. vm_compute. reflexivity.
Defined.

(** X4: selling the whole quantity of an owned position credits the
    balance with exactly the value [getTotalValue] reports for it
    (quantity times the position's own price), erases the position and
    prints nothing. *)
Theorem sell_whole_position :
  forall (u : UserPortfolio) (l1 l2 : list UserOwnedStock) (o : UserOwnedStock),
    ownedStocks u = l1 ++ o :: l2 ->
    absent (owned_name o) l1 ->
    sellStock u (owned_name o) (getQuantity o)
    = ({| balance := add (getBalance u) (getTotalValue o);
          ownedStocks := l1 ++ l2 |}, []).
Proof.
  intros [bal l] l1 l2 o Hl Habs. simpl in Hl. subst l.
  unfold sellStock, getQuantity, getTotalValue, getBalance.
  simpl balance. simpl ownedStocks.
  rewrite (sellStock_loop_found (owned_name o) (quantity o) bal l1 l2 o
             Habs eq_refl).
  rewrite Z.leb_refl. cbv zeta. rewrite (proj2 wrap_zero (quantity o)).
  reflexivity.
Qed.

Lemma sell_whole_position_witness :
  let u := fst (buyStock (fst (buyStock default_UserPortfolio apple 3)) meta 2) in
  sellStock u "META" 2
  = ({| balance := add (getBalance u) (mul (of_Z 2) (of_Z 643));
        ownedStocks := [new_UserOwnedStock apple 3] |}, []).
Proof.
  apply (sell_whole_position
           (fst (buyStock (fst (buyStock default_UserPortfolio apple 3)) meta 2))
           [new_UserOwnedStock apple 3] [] (new_UserOwnedStock meta 2)).
  - reflexivity.
  - repeat constructor. vm_compute. discriminate.
Defined.

(** X5: [buyStock] never removes a position and adds at most one;
    [sellStock] never adds a position and removes at most one. *)
Theorem position_count_step :
  forall (u : UserPortfolio) (s : SimulatedStock) (n : string) (q : Z),
    let before := List.length (ownedStocks u) in
    (before <= List.length (ownedStocks (fst (buyStock u s q))) <= before + 1)%nat
    /\ (List.length (ownedStocks (fst (sellStock u n q))) <= before
        <= List.length (ownedStocks (fst (sellStock u n q))) + 1)%nat.
Proof.
  intros u s n q before. subst before. split.
  - destruct (buyStock_cases u s q)
      as [[_ Hs] | (_ & _ & _ & [[_ Hl] | (l1 & o & l2 & Hu & _ & _ & Hl)])].
    + rewrite Hs. simpl. lia.
    + rewrite Hl, length_app. simpl. lia.
    + rewrite Hl, Hu, !length_app. simpl. lia.
  - destruct (sellStock_cases u n q)
      as [[_ Hs] | (l1 & o & l2 & Hu & _ & _ & _ & [[_ Hs] | (_ & _ & _ & Hl)])].
    + rewrite Hs. simpl. lia.
    + rewrite Hs. simpl. lia.
    + rewrite Hl, Hu. destruct (CInt.sub (quantity o) q =? 0);
        rewrite !length_app; simpl; lia.
Qed.

(** * Further properties of the price history *)

Lemma last_any_default (A : Type) (l : list A) :
  forall b d d' : A, last (b :: l) d = last (b :: l) d'.
Proof.
  induction l as [|c l IH]; intros b d d'; [reflexivity|].
  change (last (c :: l) d = last (c :: l) d'). apply IH.
Qed.

Lemma last_cons_default (A : Type) (a d : A) (l : list A) :
  last (a :: l) d = last l a.
Proof.
  destruct l as [|b l]; [reflexivity|].
  change (last (b :: l) d = last (b :: l) a). apply last_any_default.
Qed.

(** X6: the price history is append-only and ends in the current price:
    [N] calls of [updatePrice] keep the history they start from as a prefix
    and append [N] prices, none of them below [1.0], the last of which is
    the current price. *)
Theorem history_append_only :
  forall (N : nat) (s : SimulatedStock) (rnd : nat -> Z) (k : nat),
  exists tail : list double,
    getHistory (updatePrice_n N s rnd k) = getHistory s ++ tail
    /\ List.length tail = N
    /\ Forall not_below_one tail
    /\ last tail (getPrice s) = getPrice (updatePrice_n N s rnd k).
Proof.
  induction N as [|N IH]; intros s rnd k.
  - exists []. simpl. rewrite app_nil_r. repeat split. constructor.
  - destruct (IH (updatePrice s (rnd k)) rnd (S k))
      as (tail & Hh & Hlen & Hall & Hlast).
    set (p := next_price (riskLevel s) (currentPrice s) (rand_offset (rnd k))).
    exists (p :: tail). simpl updatePrice_n. rewrite Hh.
    split; [unfold getHistory; simpl; now rewrite <- app_assoc|].
    split; [simpl; now rewrite Hlen|].
    split; [constructor; [apply next_price_floor | exact Hall]|].
    rewrite last_cons_default. exact Hlast.
Qed.

(** * Further properties of [updatePrices] *)

Section UpdateFacts.

Variable rnd : nat -> Z.

Lemma updatePrices_loop_count (l : list UserOwnedStock) :
  forall k, snd (updatePrices_loop l rnd k) = (k + List.length l)%nat.
Proof.
  induction l as [|o l IH]; intros k; simpl; [lia|].
  specialize (IH (S k)).
  destruct (updatePrices_loop l rnd (S k)) as [l' k']. simpl in *. lia.
Qed.

Lemma updatePrices_loop_nth (l : list UserOwnedStock) :
  forall k j o,
    nth_error l j = Some o ->
    nth_error (fst (updatePrices_loop l rnd k)) j
    = Some (owned_updatePrice o (rnd (k + j)%nat)).
Proof.
  induction l as [|a l IH]; intros k j o Hj; [destruct j; discriminate|].
  simpl. specialize (IH (S k)).
  destruct (updatePrices_loop l rnd (S k)) as [l' k']. simpl in *.
  destruct j as [|j]; simpl in *.
  - injection Hj as <-. now rewrite Nat.add_0_r.
  - rewrite (IH j o Hj). now rewrite Nat.add_succ_r.
Qed.

Lemma updatePrices_loop_map (l : list UserOwnedStock) :
  forall k,
    map getQuantity (fst (updatePrices_loop l rnd k)) = map getQuantity l
    /\ Forall (fun o => not_below_one (getPrice (stock o)))
              (fst (updatePrices_loop l rnd k)).
Proof.
  induction l as [|a l IH]; intros k; simpl; [split; constructor|].
  specialize (IH (S k)).
  destruct (updatePrices_loop l rnd (S k)) as [l' k']. simpl in *.
  destruct IH as [Hq Hp]. split; [now rewrite Hq|].
  constructor; [apply next_price_floor | exact Hp].
Qed.

Lemma market_updatePrices_count (m : list SimulatedStock) :
  forall k, snd (market_updatePrices m rnd k) = (k + List.length m)%nat.
Proof.
  induction m as [|s m IH]; intros k; simpl; [lia|].
  specialize (IH (S k)).
  destruct (market_updatePrices m rnd (S k)) as [m' k']. simpl in *. lia.
Qed.

Lemma market_updatePrices_nth (m : list SimulatedStock) :
  forall k j s,
    nth_error m j = Some s ->
    nth_error (fst (market_updatePrices m rnd k)) j
    = Some (updatePrice s (rnd (k + j)%nat)).
Proof.
  induction m as [|a m IH]; intros k j s Hj; [destruct j; discriminate|].
  simpl. specialize (IH (S k)).
  destruct (market_updatePrices m rnd (S k)) as [m' k']. simpl in *.
  destruct j as [|j]; simpl in *.
  - injection Hj as <-. now rewrite Nat.add_0_r.
  - rewrite (IH j s Hj). now rewrite Nat.add_succ_r.
Qed.

(** The market keeps its shape over a day; only prices and histories move. *)
Lemma market_updatePrices_shape (m : list SimulatedStock) :
  forall k,
    map getId (fst (market_updatePrices m rnd k)) = map getId m
    /\ map getName (fst (market_updatePrices m rnd k)) = map getName m
    /\ map getRiskLevel (fst (market_updatePrices m rnd k)) = map getRiskLevel m
    /\ Forall (fun s => not_below_one (getPrice s))
              (fst (market_updatePrices m rnd k))
    /\ map (fun s => List.length (getHistory s))
           (fst (market_updatePrices m rnd k))
       = map (fun s => S (List.length (getHistory s))) m.
Proof.
  induction m as [|a m IH]; intros k; simpl; [repeat split; constructor|].
  specialize (IH (S k)).
  destruct (market_updatePrices m rnd (S k)) as [m' k']. simpl in *.
  destruct IH as (Hi & Hn & Hr & Hp & Hh).
  rewrite Hi, Hn, Hr, Hh. repeat split.
  - constructor; [apply next_price_floor | exact Hp].
  - unfold getHistory. simpl. rewrite length_app. simpl.
    now rewrite Nat.add_1_r.
Qed.

End UpdateFacts.

(** X7: [updatePrices] gives every position its own draw of [rand()], in
    the order of the vector: the position at index [j] is advanced with
    draw number [k + j], and as many draws are consumed as there are
    positions.  The balance, the quantities, the names and the number of
    positions are unchanged, and afterwards no position has a price below
    [1.0]. *)
Theorem updatePrices_each_position :
  forall (u : UserPortfolio) (rnd : nat -> Z) (k : nat),
    let u' := fst (updatePrices u rnd k) in
    snd (updatePrices u rnd k) = (k + List.length (ownedStocks u))%nat
    /\ getBalance u' = getBalance u
    /\ (forall j o, nth_error (ownedStocks u) j = Some o ->
          nth_error (ownedStocks u') j
          = Some (owned_updatePrice o (rnd (k + j)%nat)))
    /\ List.length (ownedStocks u') = List.length (ownedStocks u)
    /\ map getQuantity (ownedStocks u') = map getQuantity (ownedStocks u)
    /\ names (ownedStocks u') = names (ownedStocks u)
    /\ Forall (fun o => not_below_one (getPrice (stock o))) (ownedStocks u').
Proof.
  intros u rnd k u'. subst u'. unfold updatePrices.
  pose proof (updatePrices_loop_count rnd (ownedStocks u) k) as Hc.
  pose proof (updatePrices_loop_nth rnd (ownedStocks u) k) as Hn.
  pose proof (updatePrices_loop_map rnd (ownedStocks u) k) as [Hq Hp].
  pose proof (updatePrices_loop_names (ownedStocks u) rnd k) as Hnames.
  destruct (updatePrices_loop (ownedStocks u) rnd k) as [l' k']. simpl in *.
  repeat split; try assumption.
  rewrite <- (length_map getQuantity l'), Hq. apply length_map.
Qed.

(** * The menu loop *)

Section MenuFacts.

Variable rnd : nat -> Z.

Lemma main_case2_some (m : list SimulatedStock) (u : UserPortfolio) (i qty : Z) :
  CInt.in_range i ->
  (main_case2 m u i qty = Some (u, [msg_invalid_id]))
  \/ (exists s, nth_error m (Z.to_nat (i - 1)) = Some s
                /\ 1 <= i <= Z.of_nat (List.length m)
                /\ main_case2 m u i qty = Some (buyStock u s qty)).
Proof.
  intros Hr. unfold main_case2.
  unfold CInt.in_range, CInt.INT_MIN, CInt.INT_MAX in Hr.
  destruct (1 <=? i) eqn:E1; [|left; reflexivity].
  apply Z.leb_le in E1.
  assert (Hs : CInt.to_size_t i = i)
    by (unfold CInt.to_size_t; apply Z.mod_small; lia).
  rewrite Hs.
  destruct (i <=? Z.of_nat (List.length m)) eqn:E2; [|left; reflexivity].
  apply Z.leb_le in E2. simpl. right.
  destruct (nth_error m (Z.to_nat (i - 1))) as [s|] eqn:En.
  - exists s. repeat split; assumption.
  - apply nth_error_None in En. lia.
Qed.

(** What one iteration can do to the variables of [main]. *)
Lemma main_body_step (st st' : Program) (c : Z) (ops : Operands)
    (out : list string) :
  main_body rnd st c ops = Some (st', out) ->
  (c <> 3 /\ c <> 5 /\ st' = st)
  \/ (c = 2 /\ exists s,
        nth_error (market st) (Z.to_nat (op_id ops - 1)) = Some s
        /\ st' = {| market := market st;
                    user := fst (buyStock (user st) s (op_qty ops));
                    drawn := drawn st |})
  \/ (c = 3
      /\ st' = {| market := market st;
                  user := fst (sellStock (user st) (op_name ops) (op_qty ops));
                  drawn := drawn st |})
  \/ (c = 5
      /\ st' = {| market := fst (market_updatePrices (market st) rnd (drawn st));
                  user := fst (updatePrices (user st) rnd
                                 (drawn st + List.length (market st))%nat);
                  drawn := (drawn st + List.length (market st)
                            + List.length (ownedStocks (user st)))%nat |}).
Proof.
  intros H. unfold main_body in H.
  destruct c as [|p|p];
    try (injection H as <- <-; left; repeat split; discriminate).
  destruct p as [p|p|];
    [ destruct p as [p|p|]; [ | destruct p as [p|p|] | ]
    | destruct p as [p|p|]; [ | destruct p as [p|p|] | ]
    | ];
    try (injection H as <- <-; left; repeat split; discriminate).
  - (* 5 *) right. right. right. split; [reflexivity|].
    pose proof (market_updatePrices_count rnd (market st) (drawn st)) as Hc.
    destruct (market_updatePrices (market st) rnd (drawn st)) as [m k1].
    simpl in Hc. subst k1.
    pose proof (updatePrices_loop_count rnd (ownedStocks (user st))
                  (drawn st + List.length (market st))) as Hc.
    unfold updatePrices in *.
    destruct (updatePrices_loop _ rnd _) as [l k2]. simpl in Hc. subst k2.
    injection H as <- <-. reflexivity.
  - (* 3 *) right. right. left. split; [reflexivity|].
    destruct (sellStock _ _ _) as [u o]. injection H as <- <-. reflexivity.
  - (* 2 *) unfold main_case2 in H.
    destruct (_ && _).
    + destruct (nth_error _ _) as [s|] eqn:En; [|discriminate].
      right. left. split; [reflexivity|]. exists s. split; [reflexivity|].
      destruct (buyStock _ _ _) as [u o]. injection H as <- <-. reflexivity.
    + injection H as <- <-. left. repeat split; try discriminate.
      now destruct st.
Qed.

Lemma main_body_defined (st : Program) (c : Z) (ops : Operands) :
  CInt.in_range (op_id ops) ->
  exists st' out, main_body rnd st c ops = Some (st', out).
Proof.
  intros Hr. unfold main_body.
  destruct c as [|p|p]; try (do 2 eexists; reflexivity).
  destruct p as [p|p|];
    [ destruct p as [p|p|]; [ | destruct p as [p|p|] | ]
    | destruct p as [p|p|]; [ | destruct p as [p|p|] | ]
    | ];
    try (do 2 eexists; reflexivity).
  - destruct (market_updatePrices _ _ _) as [m k1].
    destruct (updatePrices _ _ _) as [u k2]. do 2 eexists. reflexivity.
  - destruct (sellStock _ _ _) as [u o]. do 2 eexists. reflexivity.
  - destruct (main_case2_some (market st) (user st) (op_id ops) (op_qty ops) Hr)
      as [H | (s & _ & _ & H)]; rewrite H.
    + do 2 eexists. reflexivity.
    + destruct (buyStock _ _ _) as [u o]. do 2 eexists. reflexivity.
Qed.

(** A property kept by every iteration holds when the loop stops. *)
Lemma main_loop_invariant (P : Program -> Prop) :
  (forall st c ops st' out,
      P st -> main_body rnd st c ops = Some (st', out) -> P st') ->
  forall inputs st st' out b,
    P st -> main_loop rnd st inputs = Some (st', out, b) -> P st'.
Proof.
  intros Hstep. induction inputs as [|[c ops] rest IH];
    intros st st' out b HP H; simpl in H.
  - injection H as <- _ _. exact HP.
  - destruct (main_body rnd st c ops) as [[st1 out1]|] eqn:E; [|discriminate].
    pose proof (Hstep _ _ _ _ _ HP E) as HP1.
    destruct (c =? 0).
    + injection H as <- _ _. exact HP1.
    + destruct (main_loop rnd st1 rest) as [[[st2 out2] b2]|] eqn:E2;
        [|discriminate].
      injection H as <- _ _. exact (IH _ _ _ _ HP1 E2).
Qed.

End MenuFacts.

(** X8: the loop of [main] never reads the market vector outside its
    bounds: whatever the user enters (every [id] being an [int]), from any
    state, every iteration is defined. *)
Theorem main_loop_stays_in_bounds :
  forall (rnd : nat -> Z) (inputs : list (Z * Operands)) (st : Program),
    int_ids inputs ->
    exists res, main_loop rnd st inputs = Some res.
Proof.
  intros rnd. induction inputs as [|[c ops] rest IH]; intros st Hids; simpl.
  - eexists. reflexivity.
  - inversion Hids as [|? ? Hr Hrest]; subst. simpl in Hr.
    destruct (main_body_defined rnd st c ops Hr) as (st1 & out1 & E).
    rewrite E. destruct (c =? 0); [eexists; reflexivity|].
    destruct (IH st1 Hrest) as ([[st2 out2] b2] & E2). rewrite E2.
    eexists. reflexivity.
Qed.

Lemma main_loop_stays_in_bounds_witness :
  exists res,
    main_loop (fun k => Z.of_nat (31 * k + 7)) main_init
      [ (2, mkOperands 10 1 ""); (2, mkOperands (-3) 1 "");
        (2, mkOperands 9 1 ""); (5, mkOperands 0 0 "");
        (0, mkOperands 0 0 "") ]
    = Some res.
Proof.
  apply main_loop_stays_in_bounds.
  repeat constructor; simpl; vm_compute; discriminate.
Defined.

Section MenuInvariants.

Variable rnd : nat -> Z.

Lemma same_instruments_step (st st' : Program) (c : Z) (ops : Operands)
    (out : list string) :
  same_instruments (market st) ->
  main_body rnd st c ops = Some (st', out) ->
  same_instruments (market st').
Proof.
  intros Hm H.
  destruct (main_body_step rnd st st' c ops out H)
    as [(_ & _ & ->) | [(_ & s & _ & ->) | [(_ & ->) | (_ & ->)]]];
    try exact Hm.
  simpl. unfold same_instruments in *.
  destruct (market_updatePrices_shape rnd (market st) (drawn st))
    as (Hi & Hn & Hr & _).
  rewrite Hi, Hn, Hr. exact Hm.
Qed.

Lemma buyStock_keeps (P : SimulatedStock -> Prop) (u : UserPortfolio)
    (s : SimulatedStock) (q : Z) :
  P (stock (new_UserOwnedStock s q)) ->
  Forall (fun o => P (stock o)) (ownedStocks u) ->
  Forall (fun o => P (stock o)) (ownedStocks (fst (buyStock u s q))).
Proof.
  intros Hnew Hall.
  destruct (buyStock_cases u s q)
    as [[_ Hs] | (_ & _ & _ & [[_ Hl] | (l1 & o & l2 & Hu & _ & _ & Hl)])].
  - now rewrite Hs.
  - rewrite Hl. apply Forall_app. split; [exact Hall|]. now constructor.
  - rewrite Hl. rewrite Hu in Hall. apply Forall_app in Hall.
    destruct Hall as [H1 H2]. inversion H2 as [|? ? Ho H3]; subst.
    apply Forall_app. split; [exact H1|]. constructor; assumption.
Qed.

Lemma sellStock_keeps (P : SimulatedStock -> Prop) (u : UserPortfolio)
    (n : string) (q : Z) :
  Forall (fun o => P (stock o)) (ownedStocks u) ->
  Forall (fun o => P (stock o)) (ownedStocks (fst (sellStock u n q))).
Proof.
  intros Hall.
  destruct (sellStock_cases u n q)
    as [[_ Hs] | (l1 & o & l2 & Hu & _ & _ & _ & [[_ Hs] | (_ & _ & _ & Hl)])].
  - now rewrite Hs.
  - now rewrite Hs.
  - rewrite Hl. rewrite Hu in Hall. apply Forall_app in Hall.
    destruct Hall as [H1 H2]. inversion H2 as [|? ? Ho H3]; subst.
    destruct (CInt.sub (quantity o) q =? 0); apply Forall_app;
      (split; [exact H1|]); [exact H3 | constructor; assumption].
Qed.

Lemma prices_floor_step (st st' : Program) (c : Z) (ops : Operands)
    (out : list string) :
  prices_floor st ->
  main_body rnd st c ops = Some (st', out) ->
  prices_floor st'.
Proof.
  intros [Hm Hu] H. unfold prices_floor.
  destruct (main_body_step rnd st st' c ops out H)
    as [(_ & _ & ->) | [(_ & s & Hs & ->) | [(_ & ->) | (_ & ->)]]]; simpl.
  - split; assumption.
  - split; [exact Hm|].
    apply (buyStock_keeps (fun x => not_below_one (getPrice x))); [|exact Hu].
    apply nth_error_In in Hs. rewrite Forall_forall in Hm. exact (Hm s Hs).
  - split; [exact Hm|].
    exact (sellStock_keeps (fun x => not_below_one (getPrice x)) _ _ _ Hu).
  - split.
    + apply (market_updatePrices_shape rnd (market st) (drawn st)).
    + unfold updatePrices.
      pose proof (updatePrices_loop_map rnd (ownedStocks (user st))
                    (drawn st + List.length (market st))) as [_ Hp].
      destruct (updatePrices_loop _ rnd _) as [l k']. exact Hp.
Qed.

Lemma buyStock_incl (u : UserPortfolio) (s : SimulatedStock) (q : Z)
    (ns : list string) :
  In (getName s) ns ->
  incl (names (ownedStocks u)) ns ->
  incl (names (ownedStocks (fst (buyStock u s q)))) ns.
Proof.
  intros Hin Hincl.
  destruct (buyStock_cases u s q)
    as [[_ Hs] | (_ & _ & _ & [[_ Hl] | (l1 & o & l2 & Hu & _ & _ & Hl)])].
  - now rewrite Hs.
  - rewrite Hl. unfold names. rewrite map_app. apply incl_app; [exact Hincl|].
    intros x [<- | []]. exact Hin.
  - rewrite Hl. rewrite Hu in Hincl. unfold names in *.
    rewrite map_app in *. exact Hincl.
Qed.

Lemma sellStock_incl (u : UserPortfolio) (n : string) (q : Z)
    (ns : list string) :
  incl (names (ownedStocks u)) ns ->
  incl (names (ownedStocks (fst (sellStock u n q)))) ns.
Proof.
  intros Hincl.
  destruct (sellStock_cases u n q)
    as [[_ Hs] | (l1 & o & l2 & Hu & _ & _ & _ & [[_ Hs] | (_ & _ & _ & Hl)])].
  - now rewrite Hs.
  - now rewrite Hs.
  - rewrite Hl. rewrite Hu in Hincl. unfold names in *.
    destruct (CInt.sub (quantity o) q =? 0); rewrite map_app in *.
    + intros x Hx. apply Hincl. apply in_app_iff in Hx. apply in_app_iff.
      destruct Hx as [Hx | Hx]; [left | right; right]; exact Hx.
    + exact Hincl.
Qed.

Lemma positions_of_market_step (st st' : Program) (c : Z) (ops : Operands)
    (out : list string) :
  positions_of_market st ->
  main_body rnd st c ops = Some (st', out) ->
  positions_of_market st'.
Proof.
  intros [Hnd Hincl] H. unfold positions_of_market.
  destruct (main_body_step rnd st st' c ops out H)
    as [(_ & _ & ->) | [(_ & s & Hs & ->) | [(_ & ->) | (_ & ->)]]]; simpl.
  - split; assumption.
  - split; [exact (buyStock_names _ s _ Hnd)|].
    apply buyStock_incl; [|exact Hincl].
    apply in_map. exact (nth_error_In _ _ Hs).
  - split; [exact (sellStock_names _ _ _ Hnd)|].
    apply sellStock_incl. exact Hincl.
  - rewrite updatePrices_names.
    destruct (market_updatePrices_shape rnd (market st) (drawn st))
      as (_ & Hn & _).
    rewrite Hn. split; assumption.
Qed.

End MenuInvariants.

Lemma main_market_shape (rnd : nat -> Z) (inputs : list (Z * Operands))
    (st' : Program) (out : list string) (b : bool) :
  main_loop rnd main_init inputs = Some (st', out, b) ->
  same_instruments (market st').
Proof.
  apply (main_loop_invariant rnd (fun st => same_instruments (market st))
           (fun st c ops st1 o1 => same_instruments_step rnd st st1 c ops o1) inputs main_init st' out b).
  repeat split.
Qed.

(** X9: during the whole session the market holds the nine instruments it
    was built with, in their order: ids, names and risk levels never
    change.  So the instrument at index [i - 1], the one the buy branch
    takes for the entry [i], always has id [i]. *)
Theorem main_market_keeps_instruments :
  forall (rnd : nat -> Z) (inputs : list (Z * Operands))
         (st' : Program) (out : list string) (b : bool),
    main_loop rnd main_init inputs = Some (st', out, b) ->
    same_instruments (market st')
    /\ forall i, 1 <= i <= 9 ->
         exists s, nth_error (market st') (Z.to_nat (i - 1)) = Some s
                   /\ getId s = i.
Proof.
  intros rnd inputs st' out b H.
  pose proof (main_market_shape rnd inputs st' out b H) as Hm.
  split; [exact Hm|]. destruct Hm as (Hids & _ & _).
  intros i Hi.
  assert (Hn : nth_error (map getId (market st')) (Z.to_nat (i - 1)) = Some i).
  { rewrite Hids.
    assert (Hc : i = 1 \/ i = 2 \/ i = 3 \/ i = 4 \/ i = 5
                 \/ i = 6 \/ i = 7 \/ i = 8 \/ i = 9) by lia.
    destruct Hc as [-> | [-> | [-> | [-> | [-> | [-> | [-> | [-> | ->]]]]]]]];
      reflexivity. }
  rewrite nth_error_map in Hn.
  destruct (nth_error (market st') (Z.to_nat (i - 1))) as [s|];
    [|discriminate].
  exists s. split; [reflexivity|]. simpl in Hn. congruence.
Qed.

Lemma main_market_keeps_instruments_witness :
  exists s,
    nth_error
      (market (fst (fst
         (match main_loop (fun k => Z.of_nat (31 * k + 7)) main_init
                  [ (5, mkOperands 0 0 ""); (2, mkOperands 3 1 "");
                    (5, mkOperands 0 0 "") ]
          with Some r => r | None => (main_init, [], false) end))))
      (Z.to_nat (3 - 1)) = Some s
    /\ getId s = 3.
Proof.
  destruct (main_loop (fun k => Z.of_nat (31 * k + 7)) main_init
              [ (5, mkOperands 0 0 ""); (2, mkOperands 3 1 "");
                (5, mkOperands 0 0 "") ]) as [[[st o] b]|] eqn:E.
  - simpl fst.
    exact (proj2 (main_market_keeps_instruments _ _ st o b E) 3 ltac:(lia)).
  - vm_compute in E. discriminate E.
Defined.

(** X10: at any point of the session no price, of the market or of the
    portfolio, is below [1.0]. *)
Theorem main_prices_never_below_one :
  forall (rnd : nat -> Z) (inputs : list (Z * Operands))
         (st' : Program) (out : list string) (b : bool),
    main_loop rnd main_init inputs = Some (st', out, b) ->
    Forall (fun s => not_below_one (getPrice s)) (market st')
    /\ Forall (fun o => not_below_one (getPrice (stock o)))
              (ownedStocks (user st')).
Proof.
  intros rnd inputs st' out b H.
  apply (main_loop_invariant rnd prices_floor (fun st c ops st1 o1 => prices_floor_step rnd st st1 c ops o1)
           inputs main_init st' out b); [|exact H].
  split; [|constructor]. repeat constructor.
Qed.

(** X11: at any point of the session the positions of the portfolio have
    pairwise distinct names, each the name of an instrument of the market;
    the portfolio therefore never holds more than nine positions. *)
Theorem main_portfolio_bounded :
  forall (rnd : nat -> Z) (inputs : list (Z * Operands))
         (st' : Program) (out : list string) (b : bool),
    main_loop rnd main_init inputs = Some (st', out, b) ->
    NoDup (names (ownedStocks (user st')))
    /\ incl (names (ownedStocks (user st'))) market_names
    /\ (List.length (ownedStocks (user st')) <= 9)%nat.
Proof.
  intros rnd inputs st' out b H.
  assert (Hp : positions_of_market st').
  { apply (main_loop_invariant rnd positions_of_market
             (fun st c ops st1 o1 => positions_of_market_step rnd st st1 c ops o1) inputs main_init st' out b);
      [|exact H].
    split; [constructor | intros x []]. }
  destruct (main_market_shape rnd inputs st' out b H) as (_ & Hn & _).
  destruct Hp as [Hnd Hincl]. rewrite Hn in Hincl.
  split; [exact Hnd|]. split; [exact Hincl|].
  pose proof (NoDup_incl_length Hnd Hincl) as Hlen.
  unfold names in Hlen. rewrite length_map in Hlen. exact Hlen.
Qed.

Lemma main_prices_never_below_one_witness :
  exists st out b,
    main_loop demo_rnd main_init demo_inputs = Some (st, out, b)
    /\ Forall (fun s => not_below_one (getPrice s)) (market st)
    /\ names (ownedStocks (user st)) = ["Apple"; "META"]%string
    /\ Forall (fun o => not_below_one (getPrice (stock o)))
              (ownedStocks (user st)).
Proof.
  destruct (main_loop demo_rnd main_init demo_inputs)
    as [[[st out] b]|] eqn:E; [|vm_compute in E; discriminate E].
  exists st, out, b. split; [reflexivity|].
  destruct (main_prices_never_below_one demo_rnd demo_inputs st out b E)
    as [Hm Hu].
  split; [exact Hm|]. split; [|exact Hu].
  vm_compute in E. injection E as <- _ _. reflexivity.
Defined.

Lemma main_portfolio_bounded_witness :
  exists st out b,
    main_loop demo_rnd main_init demo_inputs = Some (st, out, b)
    /\ NoDup (names (ownedStocks (user st)))
    /\ (List.length (ownedStocks (user st)) <= 9)%nat.
Proof.
  destruct (main_loop demo_rnd main_init demo_inputs)
    as [[[st out] b]|] eqn:E; [|vm_compute in E; discriminate E].
  exists st, out, b. split; [reflexivity|].
  destruct (main_portfolio_bounded demo_rnd demo_inputs st out b E)
    as (Hnd & _ & Hlen).
  split; assumption.
Defined.

Section DayCounter.

Variable rnd : nat -> Z.

Lemma updatePrices_loop_lift (P Q : SimulatedStock -> Prop) :
  (forall s r, P s -> Q (updatePrice s r)) ->
  forall l k,
    Forall (fun o => P (stock o)) l ->
    Forall (fun o => Q (stock o)) (fst (updatePrices_loop l rnd k)).
Proof.
  intros HPQ. induction l as [|o l IH]; intros k Hall; simpl; [constructor|].
  inversion Hall as [|? ? Ho Hl]; subst. specialize (IH (S k) Hl).
  destruct (updatePrices_loop l rnd (S k)) as [l' k']. simpl in *.
  constructor; [apply HPQ; exact Ho | exact IH].
Qed.

Lemma market_updatePrices_lift (P Q : SimulatedStock -> Prop) :
  (forall s r, P s -> Q (updatePrice s r)) ->
  forall m k,
    Forall P m -> Forall Q (fst (market_updatePrices m rnd k)).
Proof.
  intros HPQ. induction m as [|s m IH]; intros k Hall; simpl; [constructor|].
  inversion Hall as [|? ? Hs Hm]; subst. specialize (IH (S k) Hm).
  destruct (market_updatePrices m rnd (S k)) as [m' k']. simpl in *.
  constructor; [apply HPQ; exact Hs | exact IH].
Qed.

Lemma updatePrice_history_length (s : SimulatedStock) (r : Z) :
  List.length (getHistory (updatePrice s r)) = S (List.length (getHistory s)).
Proof.
  unfold getHistory. simpl. rewrite length_app. simpl. lia.
Qed.

Lemma at_day_step (d : nat) (st st' : Program) (c : Z) (ops : Operands)
    (out : list string) :
  (1 <= d)%nat ->
  at_day d st ->
  main_body rnd st c ops = Some (st', out) ->
  (c = 5 /\ at_day (S d) st') \/ (c <> 5 /\ at_day d st').
Proof.
  intros Hd [Hm Hu] H.
  destruct (main_body_step rnd st st' c ops out H)
    as [(_ & Hc & ->) | [(-> & s & Hs & ->) | [(-> & ->) | (-> & ->)]]].
  - right. split; [exact Hc | split; assumption].
  - right. split; [discriminate|]. split; [exact Hm|]. simpl.
    apply (buyStock_keeps
             (fun x => (1 <= List.length (getHistory x) <= d)%nat));
      [simpl; lia | exact Hu].
  - right. split; [discriminate|]. split; [exact Hm|]. simpl.
    exact (sellStock_keeps
             (fun x => (1 <= List.length (getHistory x) <= d)%nat) _ _ _ Hu).
  - left. split; [reflexivity|]. split; simpl.
    + apply (market_updatePrices_lift
               (fun x => List.length (getHistory x) = d)
               (fun x => List.length (getHistory x) = S d)); [|exact Hm].
      intros x r Hx. cbv beta in *.
      rewrite updatePrice_history_length. now rewrite Hx.
    + unfold updatePrices.
      pose proof (updatePrices_loop_lift
                    (fun x => (1 <= List.length (getHistory x) <= d)%nat)
                    (fun x => (1 <= List.length (getHistory x) <= S d)%nat)
                    (fun x r Hx =>
                       ltac:(cbv beta in *;
                             rewrite updatePrice_history_length; lia))
                    (ownedStocks (user st))
                    (drawn st + List.length (market st)) Hu) as Hl.
      destruct (updatePrices_loop _ rnd _) as [l k']. exact Hl.
Qed.

Lemma at_day_loop (inputs : list (Z * Operands)) :
  forall d st st' out b,
    (1 <= d)%nat ->
    at_day d st ->
    main_loop rnd st inputs = Some (st', out, b) ->
    at_day (d + simulated_days inputs) st'.
Proof.
  induction inputs as [|[c ops] rest IH]; intros d st st' out b Hd Hat H;
    simpl in H.
  - injection H as <- _ _. simpl. now rewrite Nat.add_0_r.
  - destruct (main_body rnd st c ops) as [[st1 out1]|] eqn:E; [|discriminate].
    simpl simulated_days.
    destruct (at_day_step d st st1 c ops out1 Hd Hat E) as [[-> H1] | [Hc H1]].
    + simpl in H |- *.
      destruct (main_loop rnd st1 rest) as [[[st2 out2] b2]|] eqn:E2;
        [|discriminate].
      injection H as <- _ _. rewrite Nat.add_succ_r.
      apply (IH (S d) st1 st2 out2 b2); [lia | exact H1 | exact E2].
    + destruct (c =? 0) eqn:E0.
      * injection H as <- _ _. now rewrite Nat.add_0_r.
      * apply Z.eqb_neq in Hc. rewrite Hc.
        destruct (main_loop rnd st1 rest) as [[[st2 out2] b2]|] eqn:E2;
          [|discriminate].
        injection H as <- _ _.
        apply (IH d st1 st2 out2 b2); [exact Hd | exact H1 | exact E2].
Qed.

End DayCounter.

(** X12: the day shown for an instrument is the size of its history.  At
    any point of the session every instrument of the market is at day
    1 + (number of days simulated), and every position of the portfolio is
    at a day between 1 and that number: a position starts again at day 1
    when it is bought. *)
Theorem main_day_counter :
  forall (rnd : nat -> Z) (inputs : list (Z * Operands))
         (st' : Program) (out : list string) (b : bool),
    main_loop rnd main_init inputs = Some (st', out, b) ->
    let day := S (simulated_days inputs) in
    Forall (fun s => List.length (getHistory s) = day) (market st')
    /\ Forall (fun o => (1 <= List.length (getHistory (stock o)) <= day)%nat)
              (ownedStocks (user st')).
Proof.
  intros rnd inputs st' out b H day.
  apply (at_day_loop rnd inputs 1 main_init st' out b); [lia | | exact H].
  split; [repeat constructor | constructor].
Qed.

Lemma main_day_counter_witness :
  exists st out b,
    main_loop demo_rnd main_init demo_inputs = Some (st, out, b)
    /\ simulated_days demo_inputs = 2%nat
    /\ Forall (fun s => List.length (getHistory s) = 3%nat) (market st)
    /\ map (fun o => List.length (getHistory (stock o)))
           (ownedStocks (user st)) = [3; 2]%nat.
Proof.
  destruct (main_loop demo_rnd main_init demo_inputs)
    as [[[st out] b]|] eqn:E; [|vm_compute in E; discriminate E].
  exists st, out, b. split; [reflexivity|]. split; [reflexivity|].
  destruct (main_day_counter demo_rnd demo_inputs st out b E) as [Hm _].
  split; [exact Hm|].
  vm_compute in E. injection E as <- _ _. reflexivity.
Defined.

Section LeavingTheLoop.

Variable rnd : nat -> Z.




End LeavingTheLoop.


(** X14: of the menu entries only 2 (buy), 3 (sell) and 5 (next day) can
    change the market, the portfolio or the random sequence.  [rand()] is
    called by 5 alone, once per instrument of the market and then once per
    position: the instrument at index [j] takes draw [drawn + j] and the
    position at index [j] takes draw [drawn + market size + j], so a
    position never moves with the draw of the market instrument it was
    bought from. *)
Theorem main_body_effects :
  forall (rnd : nat -> Z) (st st' : Program) (c : Z) (ops : Operands)
         (out : list string),
    main_body rnd st c ops = Some (st', out) ->
    (c <> 2 -> c <> 3 -> c <> 5 -> st' = st)
    /\ (c <> 5 -> market st' = market st /\ drawn st' = drawn st)
    /\ (c = 5 ->
        drawn st' = (drawn st + List.length (market st)
                     + List.length (ownedStocks (user st)))%nat
        /\ (forall j s, nth_error (market st) j = Some s ->
              nth_error (market st') j
              = Some (updatePrice s (rnd (drawn st + j)%nat)))
        /\ (forall j o, nth_error (ownedStocks (user st)) j = Some o ->
              nth_error (ownedStocks (user st')) j
              = Some (owned_updatePrice o
                        (rnd (drawn st + List.length (market st) + j)%nat)))).
Proof.
  intros rnd st st' c ops out H.
  destruct (main_body_step rnd st st' c ops out H)
    as [(_ & Hc & ->) | [(-> & s & Hs & ->) | [(-> & ->) | (-> & ->)]]].
  - split; [reflexivity|]. split; [split; reflexivity|]. contradiction.
  - split; [intros Hc; now elim Hc|]. split; [split; reflexivity|].
    discriminate.
  - split; [intros _ Hc; now elim Hc|]. split; [split; reflexivity|].
    discriminate.
  - split; [intros _ _ Hc; now elim Hc|]. split; [intros Hc; now elim Hc|].
    intros _. simpl. split; [reflexivity|]. split.
    + intros j s Hj. exact (market_updatePrices_nth rnd _ _ j s Hj).
    + intros j o Hj. unfold updatePrices.
      pose proof (updatePrices_loop_nth rnd (ownedStocks (user st))
                    (drawn st + List.length (market st)) j o Hj) as Hn.
      destruct (updatePrices_loop _ rnd _) as [l k']. exact Hn.
Qed.

Lemma main_body_effects_witness :
  exists st',
    main_body demo_rnd
      {| market := market0;
         user := fst (buyStock default_UserPortfolio apple 2);
         drawn := 0 |} 5 no_operands = Some (st', [])
    /\ drawn st' = 10%nat
    /\ nth_error (market st') 0 = Some (updatePrice apple (demo_rnd 0%nat))
    /\ nth_error (ownedStocks (user st')) 0
       = Some (owned_updatePrice (new_UserOwnedStock apple 2) (demo_rnd 9%nat)).
Proof.
  destruct (main_body demo_rnd
              {| market := market0;
                 user := fst (buyStock default_UserPortfolio apple 2);
                 drawn := 0 |} 5 no_operands) as [[st' out]|] eqn:E;
    [|vm_compute in E; discriminate E].
  destruct (main_body_effects _ _ _ _ _ _ E) as (_ & _ & H5).
  destruct (H5 eq_refl) as (Hd & Hm & Hu).
  exists st'. split; [|split; [exact Hd|split]].
  - unfold main_body in E.
    destruct (market_updatePrices _ _ _) as [m k1].
    destruct (updatePrices _ _ _) as [u k2]. injection E as <- <-.
    reflexivity.
  - exact (Hm 0%nat apple eq_refl).
  - exact (Hu 0%nat (new_UserOwnedStock apple 2) eq_refl).
Defined.

(** * The balance *)

Section NoOverdraft.

Lemma digits2_bounds (m : positive) :
  2 ^ (Z.pos (digits2_pos m) - 1) <= Z.pos m < 2 ^ Z.pos (digits2_pos m).
Proof.
  induction m as [m IH|m IH|]; simpl digits2_pos.
  - rewrite Pos2Z.inj_succ.
    replace (Z.succ (Z.pos (digits2_pos m)) - 1) with
      (Z.succ (Z.pos (digits2_pos m) - 1)) by lia.
    rewrite !Z.pow_succ_r by lia. rewrite (Pos2Z.inj_xI m).
    revert IH. generalize (2 ^ (Z.pos (digits2_pos m) - 1)).
    generalize (2 ^ Z.pos (digits2_pos m)). intros. lia.
  - rewrite Pos2Z.inj_succ.
    replace (Z.succ (Z.pos (digits2_pos m)) - 1) with
      (Z.succ (Z.pos (digits2_pos m) - 1)) by lia.
    rewrite !Z.pow_succ_r by lia. rewrite (Pos2Z.inj_xO m).
    revert IH. generalize (2 ^ (Z.pos (digits2_pos m) - 1)).
    generalize (2 ^ Z.pos (digits2_pos m)). intros. lia.
  - split; [reflexivity | reflexivity].
Qed.

Lemma iter_xO_value (m d : positive) :
  Z.pos (Pos.iter xO m d) = Z.pos m * 2 ^ Z.pos d.
Proof.
  induction d as [|d IH] using Pos.peano_ind.
  - simpl. lia.
  - rewrite Pos.iter_succ, (Pos2Z.inj_xO (Pos.iter xO m d)), IH, Pos2Z.inj_succ.
    rewrite Z.pow_succ_r by lia. lia.
Qed.

Lemma shl_align_value (m : positive) (e ez : Z) :
  ez <= e -> Z.pos (fst (shl_align m e ez)) = Z.pos m * 2 ^ (e - ez).
Proof.
  intros H. unfold shl_align.
  destruct (ez - e) as [|d|d] eqn:E; simpl fst.
  - replace (e - ez) with 0 by lia. simpl. lia.
  - lia.
  - rewrite iter_xO_value. replace (e - ez) with (Z.pos d) by lia.
    reflexivity.
Qed.

(** Of two well-formed finite doubles, the one with the larger exponent
    has the larger magnitude. *)
Lemma canonical_exponent_order (m1 m2 : positive) (e1 e2 : Z) :
  bounded prec emax m1 e1 = true ->
  bounded prec emax m2 e2 = true ->
  e1 < e2 ->
  Z.pos m1 < Z.pos m2 * 2 ^ (e2 - e1).
Proof.
  unfold bounded, canonical_mantissa, fexp, emin, prec, emax.
  intros H1 H2 Hlt.
  apply andb_prop in H1. destruct H1 as [H1 _].
  apply andb_prop in H2. destruct H2 as [H2 _].
  apply Z.eqb_eq in H1. apply Z.eqb_eq in H2.
  pose proof (digits2_bounds m1) as [_ B1].
  pose proof (digits2_bounds m2) as [B2 _].
  assert (D1 : Z.pos (digits2_pos m1) <= 53) by lia.
  assert (D2 : Z.pos (digits2_pos m2) = 53) by lia.
  rewrite D2 in B2.
  assert (P1 : 2 ^ Z.pos (digits2_pos m1) <= 2 ^ 53)
    by (apply Z.pow_le_mono_r; lia).
  assert (P2 : 2 ^ 1 <= 2 ^ (e2 - e1)) by (apply Z.pow_le_mono_r; lia).
  change (2 ^ (53 - 1)) with 4503599627370496 in B2.
  change (2 ^ 53) with 9007199254740992 in P1.
  change (2 ^ 1) with 2 in P2.
  nia.
Qed.


Lemma round_sign (s : bool) (m : positive) (e : Z) :
  sign_or_nan s (binary_round prec emax s m e) = true.
Proof.
  unfold binary_round. destruct (shl_align m e _) as [mz ez].
  apply round_aux_sign.
Qed.

Lemma nonneg_of_sign (x : double) :
  sign_or_nan false x = true -> is_nan x = false -> geb x d0 = true.
Proof.
  destruct x as [s|s| |s m e]; try discriminate; destruct s;
    try discriminate; reflexivity.
Qed.

Lemma normalize_nonneg (z e : Z) :
  0 <= z -> geb (binary_normalize prec emax z e false) d0 = true.
Proof.
  intros Hz. destruct z as [|p|p]; [reflexivity | | lia].
  apply nonneg_of_sign; [apply round_sign | apply round_not_nan].
Qed.

(** An amount that the test [total > balance] lets through leaves a
    difference that is not negative. *)
Lemma sub_accepted_nonneg (b t : double) :
  well_formed b -> well_formed t ->
  finite_or_zero b = true -> is_nan t = false ->
  gtb t b = false ->
  geb (sub b t) d0 = true.
Proof.
  unfold well_formed, gtb, SFltb, sub.
  destruct b as [sb|sb| |sb mb eb]; try discriminate;
    destruct t as [st|st| |st mt et]; try discriminate;
    intros Vb Vt _ _ Hacc.
  - destruct sb, st; reflexivity.
  - destruct st; [reflexivity | destruct sb; discriminate Hacc].
  - destruct st; [reflexivity | discriminate Hacc].
  - destruct sb; [discriminate Hacc | reflexivity].
  - destruct st; [reflexivity | destruct sb; discriminate Hacc].
  - simpl in Vb, Vt. unfold SFsub. apply normalize_nonneg.
    rewrite (shl_align_value mb eb (Z.min eb et)) by apply Z.le_min_l.
    rewrite (shl_align_value mt et (Z.min eb et)) by apply Z.le_min_r.
    unfold SFcompare in Hacc.
    destruct sb, st; try discriminate Hacc; unfold cond_Zopp.
    + destruct (eb ?= et) eqn:E; try discriminate Hacc.
      * apply Z.compare_eq in E. subst et. rewrite Z.min_id, Z.sub_diag.
        change (Pos.compare_cont Eq mb mt) with (Pos.compare mb mt) in Hacc.
        destruct (Pos.compare mb mt) eqn:Ec; try discriminate Hacc.
        -- apply Pos.compare_eq in Ec. subst. rewrite ?Z.pow_0_r. lia.
        -- rewrite Pos2Z.inj_compare in Ec.
           pose proof (proj1 (Z.compare_lt_iff _ _) Ec) as Hm.
           rewrite ?Z.pow_0_r. lia.
      * pose proof (proj1 (Z.compare_lt_iff _ _) E) as He.
        pose proof (canonical_exponent_order mb mt eb et Vb Vt He) as Ho.
        rewrite Z.min_l by lia. rewrite Z.sub_diag. rewrite ?Z.pow_0_r. lia.
    + assert (0 < Z.pos mb * 2 ^ (eb - Z.min eb et)).
      { apply Z.mul_pos_pos; [lia|]. apply Z.pow_pos_nonneg; lia. }
      assert (0 < Z.pos mt * 2 ^ (et - Z.min eb et)).
      { apply Z.mul_pos_pos; [lia|]. apply Z.pow_pos_nonneg; lia. }
      lia.
    + destruct (eb ?= et) eqn:E; try discriminate Hacc.
      * apply Z.compare_eq in E. subst et. rewrite Z.min_id, Z.sub_diag.
        change (Pos.compare_cont Eq mb mt) with (Pos.compare mb mt) in Hacc.
        destruct (Pos.compare mb mt) eqn:Ec; try discriminate Hacc.
        -- apply Pos.compare_eq in Ec. subst. rewrite ?Z.pow_0_r. lia.
        -- rewrite Pos2Z.inj_compare in Ec.
           pose proof (proj1 (Z.compare_gt_iff _ _) Ec) as Hm.
           rewrite ?Z.pow_0_r. lia.
      * pose proof (proj1 (Z.compare_gt_iff _ _) E) as He.
        pose proof (canonical_exponent_order mt mb et eb Vt Vb He) as Ho.
        rewrite Z.min_r by lia. rewrite Z.sub_diag. rewrite ?Z.pow_0_r. lia.
Qed.

End NoOverdraft.

(** X15: the balance check of [buyStock] prevents an overdraft.  With a
    finite balance and a total that is a number (both well-formed doubles),
    the call either is rejected, leaving the portfolio as it was, or leaves
    a balance that is [>= 0]; this holds whatever the sign of the quantity
    and of the balance before. *)
Theorem buyStock_never_overdraws :
  forall (u : UserPortfolio) (s : SimulatedStock) (q : Z),
    well_formed (getBalance u) ->
    well_formed (mul (getPrice s) (of_Z q)) ->
    finite_or_zero (getBalance u) = true ->
    is_nan (mul (getPrice s) (of_Z q)) = false ->
    buyStock u s q = (u, [msg_insufficient_balance])
    \/ (snd (buyStock u s q) = []
        /\ geb (getBalance (fst (buyStock u s q))) d0 = true).
Proof.
  intros u s q Vb Vt Fb Nt.
  destruct (buyStock_cases u s q) as [[_ Hs] | (Hacc & Hout & Hbal & _)].
  - left. exact Hs.
  - right. split; [exact Hout|]. unfold getBalance. rewrite Hbal.
    apply sub_accepted_nonneg; assumption.
Qed.

Lemma buyStock_never_overdraws_witness :
  geb (getBalance (fst (buyStock default_UserPortfolio apple 14))) d0 = true
  /\ getBalance (fst (buyStock default_UserPortfolio apple 14)) = of_Z 46
  /\ buyStock default_UserPortfolio apple 15
     = (default_UserPortfolio, [msg_insufficient_balance]).
Proof.
  destruct (buyStock_never_overdraws default_UserPortfolio apple 14)
    as [Hrej | [_ Hok]];
    try (vm_compute; reflexivity).
  - vm_compute in Hrej. discriminate Hrej.
  - split; [exact Hok|]. split; vm_compute; reflexivity.
Defined.

Section SaleProceeds.

Lemma of_Z_nonneg_sign (z : Z) :
  0 <= z -> sign_or_nan false (of_Z z) = true /\ is_nan (of_Z z) = false.
Proof.
  intros Hz. destruct z as [|p|p]; [split; reflexivity | | lia].
  unfold of_Z, binary_normalize. split; [apply round_sign | apply round_not_nan].
Qed.

(** Adding proceeds that are not negative to a balance that is not
    negative gives a balance that is not negative. *)
Lemma add_nonneg (b x : double) :
  geb b d0 = true ->
  sign_or_nan false x = true -> is_nan x = false ->
  geb (add b x) d0 = true.
Proof.
  unfold add.
  destruct b as [sb|sb| |sb mb eb]; try discriminate;
    try (destruct sb; try discriminate); intros _;
    destruct x as [sx|sx| |sx mx ex]; try discriminate;
    destruct sx; try discriminate; intros _ _; try reflexivity.
  unfold SFadd. apply normalize_nonneg. unfold cond_Zopp. lia.
Qed.

End SaleProceeds.

(** X16: selling a quantity [q >= 0] never makes a balance negative: from
    a balance [>= 0], with the price of the position sold finite and
    positive, the balance after [sellStock] is [>= 0]. *)
Theorem sellStock_keeps_balance_nonneg :
  forall (u : UserPortfolio) (n : string) (q : Z) (o : UserOwnedStock),
    geb (getBalance u) d0 = true ->
    0 <= q ->
    find_owned n (ownedStocks u) = Some o ->
    is_finite (getPrice (stock o)) = true ->
    gtb (getPrice (stock o)) d0 = true ->
    geb (getBalance (fst (sellStock u n q))) d0 = true.
Proof.
  intros u n q o Hb Hq Hfind Hfin Hpos.
  destruct (sellStock_cases u n q)
    as [[_ Hs] | (l1 & o' & l2 & _ & _ & _ & Hsome & [[_ Hs] | (_ & _ & Hbal & _)])].
  - now rewrite Hs.
  - now rewrite Hs.
  - rewrite Hfind in Hsome. injection Hsome as <-.
    unfold getBalance. rewrite Hbal.
    destruct (of_Z_nonneg_sign q Hq) as [Hsq Hnq].
    unfold getPrice in *.
    destruct (currentPrice (stock o)) as [sp|sp| |sp mp ep];
      try discriminate Hfin.
    destruct sp; [discriminate Hpos|].
    apply add_nonneg; [exact Hb | | apply mul_finite_not_nan; exact Hnq].
    unfold mul. destruct (of_Z q) as [sz|sz| |sz mz ez]; try discriminate Hnq;
      destruct sz; try discriminate Hsq; try reflexivity.
    unfold SFmul. apply round_aux_sign.
Qed.

Lemma sellStock_keeps_balance_nonneg_witness :
  let u := fst (buyStock default_UserPortfolio apple 14) in
  geb (getBalance (fst (sellStock u "Apple" 5))) d0 = true.
Proof.
  apply (sellStock_keeps_balance_nonneg
           (fst (buyStock default_UserPortfolio apple 14)) "Apple" 5
           (new_UserOwnedStock apple 14)).
  - vm_compute. reflexivity.
  - lia.
  - vm_compute. reflexivity.
  - vm_compute. reflexivity.
  - vm_compute. reflexivity.
Defined.




(** X18: with positive quantities the portfolio only ever holds positive
    quantities.  From positions that all hold a positive number of shares,
    a purchase of [q > 0] shares (no position count overflowing [int]) and
    a sale of [q > 0] shares both leave only positions with a positive
    number of shares; in particular no position of quantity 0 remains. *)
Theorem positive_quantities_kept :
  forall (u : UserPortfolio) (s : SimulatedStock) (n : string) (q : Z),
    0 < q ->
    CInt.in_range q ->
    positive_quantities (ownedStocks u) ->
    (Forall (fun o => CInt.in_range (getQuantity o + q)) (ownedStocks u) ->
     positive_quantities (ownedStocks (fst (buyStock u s q))))
    /\ positive_quantities (ownedStocks (fst (sellStock u n q))).
Proof.
  unfold positive_quantities, getQuantity.
  intros u s n q Hq Hrq Hall. split.
  - intros Hsum.
    destruct (buyStock_cases u s q)
      as [[_ Hs] | (_ & _ & _ & [[_ Hl] | (l1 & o & l2 & Hu & _ & _ & Hl)])].
    + now rewrite Hs.
    + rewrite Hl. apply Forall_app. split; [exact Hall|].
      constructor; [|constructor]. simpl. split; assumption.
    + rewrite Hl. rewrite Hu in Hall, Hsum.
      apply Forall_app in Hall. destruct Hall as [H1 H2].
      apply Forall_app in Hsum. destruct Hsum as [_ S2].
      inversion H2 as [|? ? [Ho _] H3]; subst.
      inversion S2 as [|? ? So _]; subst.
      apply Forall_app. split; [exact H1|]. constructor; [|exact H3].
      simpl. unfold CInt.add. rewrite (wrap_in_range _ So).
      split; [lia | exact So].
  - destruct (sellStock_cases u n q)
      as [[_ Hs] | (l1 & o & l2 & Hu & _ & _ & _ & [[_ Hs] | (Hle & _ & _ & Hl)])].
    + now rewrite Hs.
    + now rewrite Hs.
    + rewrite Hl. rewrite Hu in Hall.
      apply Forall_app in Hall. destruct Hall as [H1 H2].
      inversion H2 as [|? ? [Ho Hro] H3]; subst.
      assert (Hr : CInt.in_range (quantity o - q)).
      { unfold CInt.in_range, CInt.INT_MIN, CInt.INT_MAX in *. lia. }
      unfold CInt.sub. rewrite (wrap_in_range _ Hr).
      destruct (quantity o - q =? 0) eqn:E; apply Forall_app;
        (split; [exact H1|]); [exact H3|].
      apply Z.eqb_neq in E. constructor; [|exact H3]. simpl.
      split; [lia | exact Hr].
Qed.

Lemma positive_quantities_kept_witness :
  let u := fst (buyStock default_UserPortfolio apple 3) in
  map getQuantity (ownedStocks (fst (buyStock u apple 2))) = [5]
  /\ positive_quantities (ownedStocks (fst (buyStock u apple 2)))
  /\ positive_quantities (ownedStocks (fst (sellStock u "Apple" 3))).
Proof.
  assert (Hone : positive_quantities
                   (ownedStocks (fst (buyStock default_UserPortfolio apple 3)))).
  { repeat constructor; vm_compute; discriminate. }
  destruct (positive_quantities_kept
              (fst (buyStock default_UserPortfolio apple 3)) apple "Apple" 2)
    as [Hbuy _]; [lia | vm_compute; split; discriminate | exact Hone |].
  destruct (positive_quantities_kept
              (fst (buyStock default_UserPortfolio apple 3)) apple "Apple" 3)
    as [_ Hsell]; [lia | vm_compute; split; discriminate | exact Hone |].
  cbv zeta. split; [vm_compute; reflexivity|]. split; [|exact Hsell].
  apply Hbuy. repeat constructor; vm_compute; discriminate.
Defined.
